(** * sockeye/rerank.py: reranking an n-best list of translations

    A shallow embedding of [sockeye/rerank.py] (class [Reranker] and the
    command-line driver [rerank]) together with the properties of the
    reranking engine.

    Conventions of the embedding:
    - a decoded JSON value is a [json]; the n-best record of one input line
      (a Python [dict] with string keys) is a [gmap string json];
    - Python floats are modelled by rationals [Q]: only the order of the
      scores matters to the code, and NaN is not represented;
    - exceptions are values of [error]; the calls made to the external
      metric functions and the lines printed are recorded in a [world]
      that is threaded through the code by the monad [M];
    - the constants of [sockeye/constants.py] and the metric functions of
      [sacrebleu] and [sockeye/utils.py] are not part of this file: they
      are the members of the classes [Constants] and [ScoreProvider];
    - logging is omitted. *)

From Stdlib Require Import QArith Lqa.
From stdpp Require Import base gmap strings list fin_maps sorting.

Set Warnings "-register-all".
Local Open Scope string_scope.

(** ** Python values and exceptions *)

Inductive json :=
| JNull
| JBool (b : bool)
| JNum (q : Q)
| JStr (s : string)
| JList (l : list json)
| JObj (o : list (string * json)).

Inductive error :=
| KeyError (key : string)
| IndexError
| TypeError
| UnboundLocalError
| SockeyeError (msg : string).

Inductive result (A : Type) :=
| Ok (a : A)
| Raise (e : error).
Arguments Ok {A} a.
Arguments Raise {A} e.

#[export] Instance result_ret : MRet result := λ A a, Ok a.
#[export] Instance result_bind : MBind result := λ A B f r,
  match r with
  | Ok a => f a
  | Raise e => Raise e
  end.

(** One call to an external metric function, with its arguments. *)
Inductive call :=
| call_sentence_bleu (hypothesis : string) (references : list string)
    (smooth_method : string)
| call_sentence_chrf (hypothesis : string) (references : list string)
| call_compute_isometric_score (hypothesis : string) (hypothesis_score : Q)
    (source : string) (isometric_metric : string) (isometric_alpha : Q).

(** One line written to the output stream: [print(best_hypothesis)] or
    [print(json.dumps(reranked_hypotheses, sort_keys=True))]. *)
Inductive printed :=
| print_value (best_hypothesis : json)
| print_json_dumps (reranked_hypotheses : gmap string json).

Record world := World {
  scoring_calls : list call;
  output_stream : list printed
}.

(** ** The monad of the embedding: state [world], exceptions [error] *)

Definition M (A : Type) : Type := world → world * result A.

#[export] Instance M_ret : MRet M := λ A a w, (w, Ok a).
#[export] Instance M_bind : MBind M := λ A B f c w,
  match c w with
  | (w', Ok a) => f a w'
  | (w', Raise e) => (w', Raise e)
  end.

Definition raise {A} (e : error) : M A := λ w, (w, Raise e).

Definition lift {A} (r : result A) : M A := λ w, (w, r).

(** The external function returned [score]; the call is recorded. *)
Definition called (c : call) (score : Q) : M Q := λ w,
  (World (scoring_calls w ++ [c]) (output_stream w), Ok score).

Definition print (p : printed) : M () := λ w,
  (World (scoring_calls w) (output_stream w ++ [p]), Ok ()).

(** ** Python built-ins used by the code *)

(** Truth value of a decoded JSON value ([not x] is its negation). *)
Definition py_truthy (v : json) : bool :=
  match v with
  | JNull => false
  | JBool b => b
  | JNum q => negb (Qeq_bool q 0)
  | JStr s => negb (String.eqb s "")
  | JList l => negb (Nat.eqb (length l) 0)
  | JObj o => negb (Nat.eqb (length o) 0)
  end.

Fixpoint chars (s : string) : list json :=
  match s with
  | EmptyString => []
  | String c s' => JStr (String c EmptyString) :: chars s'
  end.

(** [len(v)] *)
Definition py_len (v : json) : result nat :=
  match v with
  | JList l => Ok (length l)
  | JStr s => Ok (String.length s)
  | JObj o => Ok (length o)
  | _ => Raise TypeError
  end.

(** The elements produced by iterating over [v]. *)
Definition py_iter (v : json) : result (list json) :=
  match v with
  | JList l => Ok l
  | JStr s => Ok (chars s)
  | JObj o => Ok (JStr <$> o.*1)
  | _ => Raise TypeError
  end.

(** [l[i]] on a Python list, for an index [i >= 0]. *)
Definition list_getitem {A} (l : list A) (i : nat) : result A :=
  match l !! i with
  | Some x => Ok x
  | None => Raise IndexError
  end.

(** [[l[i] for i in ranking]] *)
Definition getitems {A} (l : list A) (ranking : list nat) : result (list A) :=
  mapM (list_getitem l) ranking.

(** [v[i]] for an integer index [i >= 0]; the keys of a decoded JSON
    object are strings, so an integer is not among them. *)
Definition py_getitem (v : json) (i : nat) : result json :=
  match v with
  | JList l => list_getitem l i
  | JStr s => list_getitem (chars s) i
  | JObj o => Raise (KeyError "0")
  | _ => Raise TypeError
  end.

(** [d[key]] on a dict. *)
Definition dict_getitem (d : gmap string json) (key : string) : result json :=
  match d !! key with
  | Some v => Ok v
  | None => Raise (KeyError key)
  end.

(** [zip(l, k)] is stdpp's [zip]; [enumerate(l, start)]: *)
Fixpoint enumerate {A} (l : list A) (start : nat) : list (nat * A) :=
  match l with
  | [] => []
  | x :: l' => (start, x) :: enumerate l' (S start)
  end.

(** The external metric functions are typed: a [str] or [float] argument
    of another type is a [TypeError]. *)
Definition as_str (v : json) : result string :=
  match v with
  | JStr s => Ok s
  | _ => Raise TypeError
  end.

Definition as_float (v : json) : result Q :=
  match v with
  | JNum q => Ok q
  | _ => Raise TypeError
  end.

(** [repr] of a string without quotes, backslashes or control characters,
    and [str] of a list of such strings. *)
Definition py_repr (s : string) : string := "'" +:+ s +:+ "'".

Definition py_str_list (l : list string) : string :=
  "[" +:+ String.concat ", " (py_repr <$> l) +:+ "]".

(** [numpy.argsort(scores, kind='mergesort')]: the indices that sort
    [scores] in non-decreasing order; the sort is stable.  numpy is
    specified here by a stable insertion sort of the (index, score)
    pairs: a new pair, which comes from further left in [scores], goes in
    front of the first pair whose score is not smaller. *)
Fixpoint insert_by_score (x : nat * Q) (l : list (nat * Q)) : list (nat * Q) :=
  match l with
  | [] => [x]
  | y :: l' =>
      if Qle_bool x.2 y.2 then x :: y :: l' else y :: insert_by_score x l'
  end.

Definition stable_sort_by_score (l : list (nat * Q)) : list (nat * Q) :=
  foldr insert_by_score [] l.

Definition np_argsort (scores : list Q) (kind : string) : list nat :=
  (stable_sort_by_score (enumerate scores 0)).*1.

(** ** What the module imports *)

(** [sockeye/constants.py] *)
Class Constants := {
  RERANK_BLEU : string;
  RERANK_CHRF : string;
  RERANK_ISOMETRIC : string;
  RERANK_ISOMETRIC_LC : string;
  RERANK_METRICS : list string
}.

(** [sacrebleu.sentence_bleu(...).score], [sacrebleu.sentence_chrf(...).score]
    and [utils.compute_isometric_score]: pure functions of their arguments. *)
Class ScoreProvider := {
  sentence_bleu : string → list string → string → Q;
  sentence_chrf : string → list string → Q;
  compute_isometric_score : string → Q → string → string → Q → Q
}.

(** ** class Reranker *)

Module Reranker.

(** The callable bound to [self.scoring_function]. *)
Inductive scoring :=
| partial_sentence_bleu (smooth_method : string)
| plain_sentence_chrf
| partial_compute_isometric_score (isometric_metric : string)
    (isometric_alpha : Q).

Record t := {
  metric : string;
  isometric_alpha : Q;
  return_score : bool;
  scoring_function : scoring;
  ranking_indices : list Q → list nat
}.

Definition _get_ranking_indices (scores : list Q) (kind order : string)
  : list nat :=
  if String.eqb order "descending"
  then reverse (np_argsort scores kind)
  else np_argsort scores kind.

Section WithImports.
Context {constants : Constants} {provider : ScoreProvider}.

Definition __init__ (metric : string) (isometric_alpha : Q)
    (return_score : bool) : M t :=
  scoring_function ←
    (if String.eqb metric RERANK_BLEU then
       mret (partial_sentence_bleu "add-k")
     else if String.eqb metric RERANK_CHRF then
       mret plain_sentence_chrf
     else if String.prefix RERANK_ISOMETRIC metric then
       mret (partial_compute_isometric_score metric isometric_alpha)
     else
       raise (SockeyeError ("Scoring metric '" +:+ metric +:+
                            "' unknown. Choices are: " +:+
                            py_str_list RERANK_METRICS)));
  let ranking_indices :=
    if String.eqb metric RERANK_ISOMETRIC_LC
    then λ scores, _get_ranking_indices scores "mergesort" "ascending"
    else λ scores, _get_ranking_indices scores "mergesort" "descending" in
  mret {| metric := metric;
          isometric_alpha := isometric_alpha;
          return_score := return_score;
          scoring_function := scoring_function;
          ranking_indices := ranking_indices |}.

(** [self.scoring_function(hypothesis, [reference]).score] *)
Definition score_with_references (f : scoring) (hypothesis : json)
    (references : list string) : M Q :=
  match f with
  | partial_sentence_bleu smooth_method =>
      h ← lift (as_str hypothesis);
      called (call_sentence_bleu h references smooth_method)
             (sentence_bleu h references smooth_method)
  | plain_sentence_chrf =>
      h ← lift (as_str hypothesis);
      called (call_sentence_chrf h references) (sentence_chrf h references)
  | partial_compute_isometric_score _ _ => raise TypeError
  end.

(** [self.scoring_function(hypothesis, hypothesis_score[0], source)] once
    [hypothesis_score[0]] has been evaluated. *)
Definition score_with_source (f : scoring) (hypothesis hypothesis_score
    source : json) : M Q :=
  match f with
  | partial_compute_isometric_score isometric_metric isometric_alpha =>
      h ← lift (as_str hypothesis);
      x ← lift (as_float hypothesis_score);
      s ← lift (as_str source);
      called (call_compute_isometric_score h x s isometric_metric
                isometric_alpha)
             (compute_isometric_score h x s isometric_metric isometric_alpha)
  | _ => raise TypeError
  end.

(** Lines 78-90 of [rerank]: the locals [scores] and [ranking]. *)
Definition rerank_scores (self : t) (hypotheses : gmap string json)
    (reference : string) : M (list Q * list nat) :=
  locals ←
    (if String.eqb (metric self) RERANK_BLEU
        || String.eqb (metric self) RERANK_CHRF then
       translations ← lift (dict_getitem hypotheses "translations");
       translations ← lift (py_iter translations);
       scores ← mapM (λ hypothesis,
                   score_with_references (scoring_function self) hypothesis
                     [reference]) translations;
       mret (Some (scores, ranking_indices self scores))
     else mret None);
  locals ←
    (if String.prefix RERANK_ISOMETRIC (metric self) then
       source ← lift (dict_getitem hypotheses "text");
       translations ← lift (dict_getitem hypotheses "translations");
       model_scores ← lift (dict_getitem hypotheses "scores");
       translations ← lift (py_iter translations);
       model_scores ← lift (py_iter model_scores);
       scores ← mapM (λ '(hypothesis, hypothesis_score),
                   x ← lift (py_getitem hypothesis_score 0);
                   score_with_source (scoring_function self) hypothesis x
                     source) (zip translations model_scores);
       mret (Some (scores, ranking_indices self scores))
     else mret locals);
  match locals with
  | Some (scores, ranking) => mret (scores, ranking)
  | None => raise UnboundLocalError
  end.

Definition ranksort (ranking : list nat) (l : json) : result json :=
  match l with
  | JList l => l' ← getitems l ranking; mret (JList l')
  | _ => mret l
  end.

Definition _sort_by_ranking (hypotheses : gmap string json)
    (ranking : list nat) : result (gmap string json) :=
  foldr (λ '(key, value) acc,
           d ← acc;
           value' ← ranksort ranking value;
           mret (<[key:=value']> d))
        (mret ∅) (map_to_list hypotheses).

Definition rerank (self : t) (hypotheses : gmap string json)
    (reference : string) : M (gmap string json) :=
  '(scores, ranking) ← rerank_scores self hypotheses reference;
  reranked_hypotheses ← lift (_sort_by_ranking hypotheses ranking);
  if return_score self then
    scores_sorted ← lift (getitems scores ranking);
    let reranked_hypotheses :=
      <["scores" := JList (JNum <$> scores_sorted)]> reranked_hypotheses in
    sorted ← lift (dict_getitem reranked_hypotheses "scores");
    best ← lift (py_getitem sorted 0);
    mret (<["score" := best]> reranked_hypotheses)
  else mret reranked_hypotheses.

End WithImports.
End Reranker.

(** ** The driver [rerank(args)] *)

(** The members of [args] that the driver reads.  The three file names
    ([reference], [hypotheses], [output]) only select the streams. *)
Record Namespace := {
  metric : string;
  isometric_alpha : Q;
  return_score : bool;
  output_best : bool;
  output_reference_instead_of_blank : bool;
  output_best_non_blank : bool
}.

Definition check_condition (condition : bool) (error_message : string)
  : M () :=
  if condition then mret () else raise (SockeyeError error_message).

Section Driver.
Context {constants : Constants} {provider : ScoreProvider}.

(** Lines 135-143: [reranked_hypotheses] and [num_hypotheses] of one line. *)
Definition rerank_line (reranker : Reranker.t)
    (hypotheses : gmap string json) (reference : string)
  : M (gmap string json * nat) :=
  check_condition (bool_decide (is_Some (hypotheses !! "translations")))
    "Reranking requires nbest JSON input with 'translations' key present.";;
  translations ← lift (dict_getitem hypotheses "translations");
  num_hypotheses ← lift (py_len translations);
  if negb (bool_decide (1 < num_hypotheses)) then
    mret (hypotheses, num_hypotheses)
  else
    reranked_hypotheses ← Reranker.rerank reranker hypotheses reference;
    mret (reranked_hypotheses, num_hypotheses).

(** Lines 154-162: the loop [for h in range(num_hypotheses)] with its
    [continue] and [break]; [best_hypothesis] is the value assigned last. *)
Fixpoint non_blank_scan (reranked_hypotheses : gmap string json)
    (range : list nat) (best_hypothesis : json) : M json :=
  match range with
  | [] => mret best_hypothesis
  | h :: range' =>
      translations ← lift (dict_getitem reranked_hypotheses "translations");
      best_hypothesis ← lift (py_getitem translations h);
      if negb (py_truthy best_hypothesis)
      then non_blank_scan reranked_hypotheses range' best_hypothesis
      else mret best_hypothesis
  end.

(** Lines 145-166: what is printed for one line. *)
Definition output_line (args : Namespace)
    (reranked_hypotheses : gmap string json) (num_hypotheses : nat)
    (reference : string) : M () :=
  if output_best args then
    best_hypothesis ←
      (if bool_decide (num_hypotheses ≠ 0) then
         translations ← lift (dict_getitem reranked_hypotheses "translations");
         lift (py_getitem translations 0)
       else mret (JStr ""));
    let best_hypothesis :=
      if negb (py_truthy best_hypothesis)
         && output_reference_instead_of_blank args
      then JStr reference else best_hypothesis in
    best_hypothesis ←
      (if negb (py_truthy best_hypothesis) && output_best_non_blank args
          && bool_decide (1 < num_hypotheses)
       then non_blank_scan reranked_hypotheses (seq 0 num_hypotheses)
              best_hypothesis
       else mret best_hypothesis);
    print (print_value best_hypothesis)
  else
    print (print_json_dumps reranked_hypotheses).

(** The body of the [for] loop.  A reference line is given by its
    stripped text and a hypothesis line by the object that [json.loads]
    returns for it. *)
Definition process_line (reranker : Reranker.t) (args : Namespace)
    (line : nat * (string * gmap string json)) : M () :=
  let '(i, (reference, hypotheses)) := line in
  '(reranked_hypotheses, num_hypotheses) ←
    rerank_line reranker hypotheses reference;
  output_line args reranked_hypotheses num_hypotheses reference.

Definition rerank (args : Namespace) (reference : list string)
    (hypotheses : list (gmap string json)) : M () :=
  reranker ← Reranker.__init__ (metric args) (isometric_alpha args)
               (return_score args);
  mapM (process_line reranker args) (enumerate (zip reference hypotheses) 1);;
  mret ().

End Driver.

(** ** An instance of the imports, for the examples

    Identifiers as the specification describes them (a BLEU-like one, a
    ChrF-like one and a family with a common prefix), and toy metrics:
    the overlap metrics return the length of the hypothesis, the isometric
    one adds the model score to it. *)
Module Sample.

#[export] Instance constants : Constants := {|
  RERANK_BLEU := "bleu";
  RERANK_CHRF := "chrf";
  RERANK_ISOMETRIC := "isometric";
  RERANK_ISOMETRIC_LC := "isometric-lc";
  RERANK_METRICS :=
    ["bleu"; "chrf"; "isometric-ratio"; "isometric-diff"; "isometric-lc"]
|}.

#[export] Instance provider : ScoreProvider := {|
  sentence_bleu h _ _ := inject_Z (Z.of_nat (String.length h));
  sentence_chrf h _ := inject_Z (Z.of_nat (String.length h));
  compute_isometric_score h x _ _ _ :=
    (inject_Z (Z.of_nat (String.length h)) + x)%Q
|}.

Definition w0 : world := World [] [].

Definition run {A} (c : M A) : result A := (c w0).2.

(** [Reranker(metric, 0.5, return_score)] *)
Definition reranker (metric : string) (return_score : bool)
  : result Reranker.t :=
  run (Reranker.__init__ metric 0.5 return_score).

Definition rerank (metric : string) (return_score : bool)
    (hypotheses : gmap string json) (reference : string)
  : result (gmap string json) :=
  run (self ← Reranker.__init__ metric 0.5 return_score;
       Reranker.rerank self hypotheses reference).

Definition strs (l : list string) : json := JList (JStr <$> l).

Definition nums (l : list Q) : json := JList (JNum <$> l).

(** An n-best record with four hypotheses, two of which get the same toy
    score, and one model score sequence per hypothesis. *)
Definition nbest : gmap string json :=
  {[ "sentence_id" := JNum 7;
     "text" := JStr "source";
     "translations" := strs ["abc"; "abcde"; "fghij"; "a"];
     "scores" := JList [nums [-1]; nums [-2]; nums [-3]; nums [-4]]%Q ]}.

(** A record with a list-valued field that has more elements than there
    are hypotheses, and a record with a field [score] that is not a list. *)
Definition nbest_longer_field : gmap string json :=
  {[ "translations" := strs ["a"; "bb"];
     "alignment" := strs ["p"; "q"; "r"] ]}.

Definition nbest_with_score : gmap string json :=
  {[ "translations" := strs ["a"; "bb"];
     "score" := JNum 9 ]}.

(** [Reranker("isometric-lc", 0.5, False)] and its run on [nbest]: the
    toy scores are [[2, 3, 2, -3]], ranked in ascending order. *)
Definition isometric_lc : Reranker.t := {|
  Reranker.metric := "isometric-lc";
  Reranker.isometric_alpha := 0.5;
  Reranker.return_score := false;
  Reranker.scoring_function :=
    Reranker.partial_compute_isometric_score "isometric-lc" 0.5;
  Reranker.ranking_indices := λ scores,
    Reranker._get_ranking_indices scores "mergesort" "ascending"
|}.

Definition isometric_lc_world : world := {|
  scoring_calls :=
    [call_compute_isometric_score "abc" (-1) "source" "isometric-lc" 0.5;
     call_compute_isometric_score "abcde" (-2) "source" "isometric-lc" 0.5;
     call_compute_isometric_score "fghij" (-3) "source" "isometric-lc" 0.5;
     call_compute_isometric_score "a" (-4) "source" "isometric-lc" 0.5];
  output_stream := []
|}.

Definition isometric_lc_nbest : gmap string json :=
  {[ "sentence_id" := JNum 7;
     "text" := JStr "source";
     "translations" := strs ["a"; "abc"; "fghij"; "abcde"];
     "scores" := JList [nums [-4]; nums [-1]; nums [-3]; nums [-2]]%Q ]}.

(** [Reranker("bleu", 0.5, True)] and its run on [nbest]: the toy scores
    are [[3, 5, 5, 1]], ranked in descending order and attached. *)
Definition bleu_scored : Reranker.t := {|
  Reranker.metric := "bleu";
  Reranker.isometric_alpha := 0.5;
  Reranker.return_score := true;
  Reranker.scoring_function := Reranker.partial_sentence_bleu "add-k";
  Reranker.ranking_indices := λ scores,
    Reranker._get_ranking_indices scores "mergesort" "descending"
|}.

Definition bleu_world : world := {|
  scoring_calls :=
    [call_sentence_bleu "abc" ["reference"] "add-k";
     call_sentence_bleu "abcde" ["reference"] "add-k";
     call_sentence_bleu "fghij" ["reference"] "add-k";
     call_sentence_bleu "a" ["reference"] "add-k"];
  output_stream := []
|}.

Definition bleu_scored_nbest : gmap string json :=
  {[ "sentence_id" := JNum 7;
     "text" := JStr "source";
     "translations" := strs ["fghij"; "abcde"; "abc"; "a"];
     "scores" := nums [5; 5; 3; 1]%Q;
     "score" := JNum 5 ]}.

(** A record with three hypotheses and two model score sequences, and
    the run of [isometric_lc] on it. *)
Definition nbest_short_scores : gmap string json :=
  {[ "text" := JStr "source";
     "translations" := strs ["abc"; "abcde"; "x"];
     "scores" := JList [nums [-1]; nums [-2]]%Q ]}.

Definition isometric_lc_short_world : world := {|
  scoring_calls :=
    [call_compute_isometric_score "abc" (-1) "source" "isometric-lc" 0.5;
     call_compute_isometric_score "abcde" (-2) "source" "isometric-lc" 0.5];
  output_stream := []
|}.

Definition isometric_lc_short_nbest : gmap string json :=
  {[ "text" := JStr "source";
     "translations" := strs ["abc"; "abcde"];
     "scores" := JList [nums [-1]; nums [-2]]%Q ]}.

(** Best-hypothesis output, no substitution of the reference, scan for a
    non-blank hypothesis. *)
Definition best_non_blank : Namespace := {|
  metric := "bleu";
  isometric_alpha := 0.5;
  return_score := false;
  output_best := true;
  output_reference_instead_of_blank := false;
  output_best_non_blank := true
|}.

(** [d.get(key)] on the result of a call; [None] if the call raised. *)
Definition field (key : string) (r : result (gmap string json))
  : option json :=
  match r with
  | Ok d => d !! key
  | Raise _ => None
  end.

End Sample.


(** ** Predicates used in the statements *)

(** [before a b]: in a stable sort by score, the (index, score) pair [a]
    is placed before the pair [b]. *)
Definition before (a b : nat * Q) : Prop :=
  (a.2 < b.2)%Q ∨ ((a.2 == b.2)%Q ∧ a.1 < b.1).

(** [s] occurs in [t]. *)
Definition occurs_in (s t : string) : Prop :=
  ∃ pre post, t = pre +:+ s +:+ post.

(** [c] prints nothing, whether it returns or raises. *)
Definition silent {A} (c : M A) : Prop :=
  ∀ w w' r, c w = (w', r) → output_stream w' = output_stream w.


(** * Properties *)

(** ** The monads *)

Lemma bind_Ok_inv {A B} (c : M A) (f : A → M B) w w' b :
  (c ≫= f) w = (w', Ok b) →
  ∃ w1 a, c w = (w1, Ok a) ∧ f a w1 = (w', Ok b).
Proof.
  unfold mbind, M_bind. destruct (c w) as [w1 [a|e]]; [eauto | discriminate].
Qed.

Lemma bind_Ok {A B} (c : M A) (f : A → M B) w w1 a :
  c w = (w1, Ok a) → (c ≫= f) w = f a w1.
Proof. unfold mbind, M_bind. by intros ->. Qed.

Lemma bind_ext {A B} (c : M A) (f g : A → M B) w :
  (∀ a w', f a w' = g a w') → (c ≫= f) w = (c ≫= g) w.
Proof. intros H. unfold mbind, M_bind. by destruct (c w) as [w' [a|e]]. Qed.

Lemma bind_Raise {A B} (c : M A) (f : A → M B) w w1 e :
  c w = (w1, Raise e) → (c ≫= f) w = (w1, Raise e).
Proof. unfold mbind, M_bind. by intros ->. Qed.

Lemma lift_Ok_inv {A} (r : result A) w w' a :
  lift r w = (w', Ok a) → w' = w ∧ r = Ok a.
Proof. unfold lift. by intros [= -> ->]. Qed.

Lemma mret_Ok_inv {A} (x : A) w w' a :
  mret (M := M) x w = (w', Ok a) → w' = w ∧ a = x.
Proof. unfold mret, M_ret. by intros [= -> ->]. Qed.

Lemma result_bind_Ok_inv {A B} (r : result A) (f : A → result B) b :
  r ≫= f = Ok b → ∃ a, r = Ok a ∧ f a = Ok b.
Proof. destruct r; [eauto | discriminate]. Qed.

(** Takes a successful run of a sequence of binds apart. *)
Ltac inv_run H :=
  repeat match type of H with
  | (_ ≫= _) _ = (_, Ok _) =>
      let w := fresh "w" in let a := fresh "a" in let H1 := fresh "Hrun" in
      apply bind_Ok_inv in H as (w & a & H1 & H);
      try (apply lift_Ok_inv in H1 as [-> H1])
  | lift _ _ = (_, Ok _) => apply lift_Ok_inv in H as [-> H]
  | mret _ _ = (_, Ok _) => apply mret_Ok_inv in H as [-> ->]
  end.

Lemma mapM_M_length {A B} (f : A → M B) l w w' bs :
  mapM f l w = (w', Ok bs) → length bs = length l.
Proof.
  revert w w' bs. induction l as [|x l IH]; intros w w' bs H; simpl in H.
  - apply mret_Ok_inv in H as [_ ->]. done.
  - apply bind_Ok_inv in H as (w1 & b & _ & H).
    apply bind_Ok_inv in H as (w2 & bs' & Hl & H).
    apply mret_Ok_inv in H as [_ ->]. simpl. f_equal. eauto.
Qed.

Lemma mapM_M_returns {A B} (f : A → M B) l :
  Forall (λ x, ∀ w, ∃ w' b, f x w = (w', Ok b)) l →
  ∀ w, ∃ w' bs, mapM f l w = (w', Ok bs).
Proof.
  induction 1 as [|x l Hx _ IH]; intros w; simpl.
  - by eexists _, _.
  - destruct (Hx w) as (w1 & b & Hb). destruct (IH w1) as (w2 & bs & Hbs).
    exists w2, (b :: bs). rewrite (bind_Ok _ _ _ _ _ Hb).
    by rewrite (bind_Ok _ _ _ _ _ Hbs).
Qed.

(** ** [[l[i] for i in ranking]] *)

Lemma list_getitem_Ok {A} (l : list A) i x :
  list_getitem l i = Ok x ↔ l !! i = Some x.
Proof. unfold list_getitem. destruct (l !! i); naive_solver. Qed.

Lemma getitems_Ok {A} (l l' : list A) ranking :
  getitems l ranking = Ok l' ↔ Forall2 (λ i x, l !! i = Some x) ranking l'.
Proof.
  unfold getitems. revert l'. induction ranking as [|i r IH]; intros l'; simpl.
  - split; [intros [= <-]; constructor | by inversion 1].
  - split.
    + intros H. apply result_bind_Ok_inv in H as (x & Hx & H).
      apply result_bind_Ok_inv in H as (k & Hk & [= <-]).
      constructor; [by apply list_getitem_Ok | by apply IH].
    + inversion 1 as [|? x ? k Hx Hk]; subst.
      apply list_getitem_Ok in Hx. apply IH in Hk. by rewrite Hx, Hk.
Qed.

Lemma getitems_lookup {A} (l l' : list A) ranking j i :
  getitems l ranking = Ok l' → ranking !! j = Some i → l' !! j = l !! i.
Proof.
  rewrite getitems_Ok. intros H Hj.
  destruct (Forall2_lookup_l _ _ _ _ _ H Hj) as (x & -> & Hx). done.
Qed.

Lemma getitems_length {A} (l l' : list A) ranking :
  getitems l ranking = Ok l' → length l' = length ranking.
Proof. rewrite getitems_Ok. intros H. symmetry. by eapply Forall2_length. Qed.

Lemma getitems_fmap {A B} (g : A → B) (l l' : list A) ranking :
  getitems l ranking = Ok l' → getitems (g <$> l) ranking = Ok (g <$> l').
Proof.
  rewrite !getitems_Ok. intros H. apply Forall2_fmap_r.
  eapply Forall2_impl; [exact H|]. intros i x Hx. simpl.
  by rewrite list_lookup_fmap, Hx.
Qed.

Lemma getitems_returns {A} (l : list A) ranking :
  Forall (λ i, i < length l) ranking → ∃ l', getitems l ranking = Ok l'.
Proof.
  induction 1 as [|i r Hi _ [k Hk]].
  - by exists [].
  - destruct (lookup_lt_is_Some_2 l i Hi) as [x Hx]. exists (x :: k).
    apply getitems_Ok. constructor; [done | by apply getitems_Ok].
Qed.

Lemma getitems_seq {A} (l : list A) : getitems l (seq 0 (length l)) = Ok l.
Proof.
  apply getitems_Ok. apply Forall2_same_length_lookup_2.
  - by rewrite length_seq.
  - intros j i x Hi Hx. apply lookup_seq in Hi as [-> _]. done.
Qed.

Lemma Forall2_functional {A B} (R : A → B → Prop) s m k :
  (∀ i x y, R i x → R i y → x = y) →
  Forall2 R s m → Forall2 R s k → m = k.
Proof.
  intros HR Hm. revert k.
  induction Hm as [|i x s m Hx _ IH]; intros k Hk; inversion Hk; subst.
  - done.
  - f_equal; eauto.
Qed.

(** A ranking that is a permutation of the indices of [l] reorders [l]. *)
Lemma getitems_Permutation {A} (l l' : list A) ranking :
  ranking ≡ₚ seq 0 (length l) → getitems l ranking = Ok l' → l' ≡ₚ l.
Proof.
  intros Hp H. apply getitems_Ok in H.
  destruct (Permutation_Forall2 Hp H) as (m & Hm & Hs).
  pose proof (getitems_seq l) as Hl. apply getitems_Ok in Hl.
  enough (m = l) by (subst; done).
  eapply Forall2_functional; [|exact Hs|exact Hl].
  simpl. congruence.
Qed.

(** ** The stable sort and [numpy.argsort] *)

Lemma insert_by_score_Permutation x l : insert_by_score x l ≡ₚ x :: l.
Proof.
  induction l as [|y l IH]; simpl; [done|].
  destruct (Qle_bool x.2 y.2); [done|]. by rewrite IH, perm_swap.
Qed.

Lemma stable_sort_by_score_Permutation l : stable_sort_by_score l ≡ₚ l.
Proof.
  induction l as [|x l IH]; simpl; [done|].
  by rewrite insert_by_score_Permutation, IH.
Qed.

Lemma before_le (a b : nat * Q) : before a b → (a.2 <= b.2)%Q.
Proof. intros [H|[H _]]; lra. Qed.

Lemma le_before (a b : nat * Q) : (a.2 <= b.2)%Q → a.1 < b.1 → before a b.
Proof.
  intros H Hi. unfold before.
  destruct (Qlt_le_dec a.2 b.2); [by left|right]. split; [lra|done].
Qed.

Lemma Qle_bool_false x y : Qle_bool x y = false → (y < x)%Q.
Proof.
  intros H. destruct (Qlt_le_dec y x) as [|Hle]; [done|].
  apply Qle_bool_iff in Hle. congruence.
Qed.

Lemma insert_by_score_sorted x l :
  StronglySorted before l → Forall (λ y, x.1 < y.1) l →
  StronglySorted before (insert_by_score x l).
Proof.
  induction 1 as [|y l Hl IH Hy]; intros Hx; simpl.
  - repeat constructor.
  - apply Forall_cons in Hx as [Hxy Hx].
    destruct (Qle_bool x.2 y.2) eqn:Hle.
    + apply Qle_bool_iff in Hle. constructor; [by constructor|].
      constructor; [by apply le_before|].
      rewrite Forall_forall in Hy, Hx. apply Forall_forall. intros z Hz.
      apply le_before; [|by apply Hx].
      specialize (Hy z Hz). apply before_le in Hy. lra.
    + apply Qle_bool_false in Hle. constructor; [by apply IH|].
      rewrite insert_by_score_Permutation. constructor; [by left|done].
Qed.

Lemma enumerate_fst {A} (l : list A) k : (enumerate l k).*1 = seq k (length l).
Proof. revert k. induction l; intros k; simpl; [done|]. by f_equal. Qed.

Lemma enumerate_snd {A} (l : list A) k : (enumerate l k).*2 = l.
Proof. revert k. induction l; intros k; simpl; [done|]. by f_equal. Qed.

Lemma elem_of_enumerate {A} (l : list A) k i x :
  (i, x) ∈ enumerate l k → (k ≤ i)%nat ∧ l !! (i - k) = Some x.
Proof.
  revert k. induction l as [|y l IH]; intros k; simpl.
  - by intros ?%elem_of_nil.
  - intros [[= -> ->]|H]%elem_of_cons.
    + split; [lia|]. by replace (k - k) with 0 by lia.
    + apply IH in H as [Hk H]. split; [lia|].
      by replace (i - k) with (S (i - S k)) by lia.
Qed.

Lemma stable_sort_enumerate_sorted (l : list Q) k :
  StronglySorted before (stable_sort_by_score (enumerate l k)).
Proof.
  revert k. induction l as [|x l IH]; intros k; simpl; [constructor|].
  apply insert_by_score_sorted; [apply IH|].
  rewrite stable_sort_by_score_Permutation. apply Forall_forall.
  intros [i y] [Hi _]%elem_of_enumerate. simpl. lia.
Qed.

Lemma StronglySorted_reverse {A} (R : relation A) l :
  StronglySorted R l → StronglySorted (flip R) (reverse l).
Proof.
  induction 1 as [|x l _ IH Hx]; [constructor|].
  rewrite reverse_cons. apply StronglySorted_app_2; [|done|repeat constructor].
  intros y z Hy ->%list_elem_of_singleton. rewrite elem_of_reverse in Hy.
  rewrite Forall_forall in Hx. unfold flip. by apply Hx.
Qed.

Lemma StronglySorted_lookup {A} (R : relation A) l p q a b :
  StronglySorted R l → l !! p = Some a → l !! q = Some b → p < q → R a b.
Proof.
  intros Hl. revert p q. induction Hl as [|x l _ IH Hx]; intros p q.
  - by rewrite lookup_nil.
  - destruct p as [|p], q as [|q]; simpl; try lia.
    + intros [= ->] Hb _. rewrite Forall_forall in Hx. apply Hx.
      by eapply list_elem_of_lookup_2.
    + intros Ha Hb Hpq. apply (IH p q); [done..|lia].
Qed.

Lemma stable_sort_enumerate_elem_of (scores : list Q) i x :
  (i, x) ∈ stable_sort_by_score (enumerate scores 0) → scores !! i = Some x.
Proof.
  rewrite stable_sort_by_score_Permutation.
  intros [_ H]%elem_of_enumerate. by replace (i - 0) with i in H by lia.
Qed.

(** The sorted (index, score) pairs behind [np_argsort scores kind]. *)
Lemma np_argsort_pairs scores kind :
  let pairs := stable_sort_by_score (enumerate scores 0) in
  np_argsort scores kind = pairs.*1 ∧
  getitems scores (np_argsort scores kind) = Ok pairs.*2 ∧
  StronglySorted before pairs.
Proof.
  intros pairs. split; [done|]. split; [|apply stable_sort_enumerate_sorted].
  apply getitems_Ok. unfold np_argsort. fold pairs.
  apply Forall2_fmap. apply Forall_Forall2_diag. apply Forall_forall.
  intros [i x] H. by apply stable_sort_enumerate_elem_of.
Qed.

Lemma np_argsort_Permutation scores kind :
  np_argsort scores kind ≡ₚ seq 0 (length scores).
Proof.
  unfold np_argsort. rewrite stable_sort_by_score_Permutation.
  by rewrite enumerate_fst.
Qed.

(** [numpy.argsort] sorts in non-decreasing order. *)
Lemma np_argsort_ascending scores kind :
  ∃ in_order, getitems scores (np_argsort scores kind) = Ok in_order ∧
              StronglySorted Qle in_order.
Proof.
  destruct (np_argsort_pairs scores kind) as (_ & H & Hs).
  eexists; split; [exact H|].
  eapply StronglySorted_fmap; [|exact Hs]. apply before_le.
Qed.

(** [numpy.argsort(kind='mergesort')] is stable: of two indices with equal
    scores, the smaller one comes first. *)
Lemma np_argsort_stable scores kind p q i j x y :
  np_argsort scores kind !! p = Some i →
  np_argsort scores kind !! q = Some j →
  p < q →
  scores !! i = Some x → scores !! j = Some y → (x == y)%Q →
  i < j.
Proof.
  unfold np_argsort. rewrite !list_lookup_fmap.
  intros Hp Hq Hpq Hx Hy Hxy.
  destruct (_ !! p) as [[i' x']|] eqn:Ep; [|done].
  destruct (_ !! q) as [[j' y']|] eqn:Eq; [|done].
  simpl in Hp, Hq. injection Hp as ->. injection Hq as ->.
  pose proof (stable_sort_enumerate_elem_of scores i x'
                (list_elem_of_lookup_2 _ _ _ Ep)) as Hx'.
  pose proof (stable_sort_enumerate_elem_of scores j y'
                (list_elem_of_lookup_2 _ _ _ Eq)) as Hy'.
  assert (x' = x) as -> by congruence. assert (y' = y) as -> by congruence.
  destruct (StronglySorted_lookup before _ p q _ _
              (stable_sort_enumerate_sorted scores 0) Ep Eq Hpq)
    as [Hlt|[_ Hlt]]; simpl in Hlt; [lra|done].
Qed.

(** ** [Reranker._get_ranking_indices] *)

Lemma _get_ranking_indices_Permutation scores kind order :
  Reranker._get_ranking_indices scores kind order ≡ₚ seq 0 (length scores).
Proof.
  unfold Reranker._get_ranking_indices. destruct (String.eqb _ _).
  - by rewrite reverse_Permutation, np_argsort_Permutation.
  - apply np_argsort_Permutation.
Qed.

Lemma _get_ranking_indices_descending scores kind :
  ∃ in_order,
    getitems scores (Reranker._get_ranking_indices scores kind "descending")
      = Ok in_order ∧
    StronglySorted (flip Qle) in_order.
Proof.
  destruct (np_argsort_ascending scores kind) as (l & H & Hl).
  exists (reverse l). split; [|by apply StronglySorted_reverse].
  apply getitems_Ok. apply Forall2_reverse. by apply getitems_Ok.
Qed.

Lemma _get_ranking_indices_ascending scores kind :
  ∃ in_order,
    getitems scores (Reranker._get_ranking_indices scores kind "ascending")
      = Ok in_order ∧
    StronglySorted Qle in_order.
Proof. apply np_argsort_ascending. Qed.

(** ** [Reranker._sort_by_ranking] *)

Lemma ranksort_not_list ranking v :
  (∀ l, v ≠ JList l) → Reranker.ranksort ranking v = Ok v.
Proof. destruct v; try done. intros H. by destruct (H l). Qed.

Lemma ranksort_list ranking l v' :
  Reranker.ranksort ranking (JList l) = Ok v' ↔
  ∃ l', getitems l ranking = Ok l' ∧ v' = JList l'.
Proof.
  simpl. split.
  - intros (l' & H & [= <-])%result_bind_Ok_inv. eauto.
  - intros (l' & -> & ->). done.
Qed.

Lemma sort_items_lookup ranking (items : list (string * json))
    (d : gmap string json) key :
  foldr (λ '(key, value) acc,
           d ← acc;
           value' ← Reranker.ranksort ranking value;
           mret (<[key:=value']> d))
        (mret ∅) items = Ok d →
  (d !! key = None ∧ key ∉ items.*1) ∨
  (∃ v v', (key, v) ∈ items ∧ Reranker.ranksort ranking v = Ok v' ∧
           d !! key = Some v').
Proof.
  revert d. induction items as [|[k v] items IH]; intros d; simpl.
  - intros [= <-]. left. split; [apply lookup_empty | apply not_elem_of_nil].
  - intros (d0 & Hd0 & H)%result_bind_Ok_inv.
    apply result_bind_Ok_inv in H as (v' & Hv' & [= <-]).
    destruct (decide (k = key)) as [->|Hne].
    + right. exists v, v'. rewrite lookup_insert_eq.
      split_and!; [apply elem_of_cons; by left | done..].
    + rewrite lookup_insert_ne by done.
      destruct (IH d0 Hd0) as [[Hn Hk]|(u & u' & Hu & Hr & Hl)].
      * left. split; [done|]. rewrite not_elem_of_cons. done.
      * right. exists u, u'. split_and!; [|done..].
        apply elem_of_cons. by right.
Qed.

(** Every field of the result is the [ranksort] of the same field of the
    input, and there is no other field. *)
Lemma _sort_by_ranking_lookup hypotheses ranking d key :
  Reranker._sort_by_ranking hypotheses ranking = Ok d →
  option_Forall2 (λ v v', Reranker.ranksort ranking v = Ok v')
    (hypotheses !! key) (d !! key).
Proof.
  intros H. apply (sort_items_lookup _ _ _ key) in H.
  destruct H as [[Hn Hk]|(v & v' & Hv & Hr & Hl)].
  - rewrite Hn. rewrite <-not_elem_of_dom in *.
    assert (hypotheses !! key = None) as ->.
    { apply not_elem_of_dom. intros Hd. apply Hk.
      apply elem_of_dom in Hd as [v Hv].
      apply list_elem_of_fmap. exists (key, v). split; [done|].
      by apply elem_of_map_to_list. }
    constructor.
  - apply elem_of_map_to_list in Hv. rewrite Hv, Hl. by constructor.
Qed.

Lemma sort_items_returns ranking (items : list (string * json)) :
  Forall (λ kv, ∃ v', Reranker.ranksort ranking kv.2 = Ok v') items →
  ∃ d : gmap string json, foldr (λ '(key, value) acc,
           d ← acc;
           value' ← Reranker.ranksort ranking value;
           mret (<[key:=value']> d))
        (mret ∅) items = Ok d.
Proof.
  induction 1 as [|[k v] items [v' Hv] _ [d Hd]]; simpl.
  - by eexists.
  - rewrite Hd. simpl in *. rewrite Hv. by eexists.
Qed.

(** [_sort_by_ranking] returns when no list-valued field is too short for
    the indices of [ranking]. *)
Lemma _sort_by_ranking_returns hypotheses ranking n :
  ranking ≡ₚ seq 0 n →
  (∀ key l, hypotheses !! key = Some (JList l) → (n ≤ length l)%nat) →
  ∃ d, Reranker._sort_by_ranking hypotheses ranking = Ok d.
Proof.
  intros Hp Hlen. apply sort_items_returns. apply Forall_forall.
  intros [k v] Hkv%elem_of_map_to_list. simpl.
  destruct v as [| | | |l|]; try by eexists.
  destruct (getitems_returns l ranking) as [l' Hl'].
  - rewrite Hp. apply Forall_forall. intros i Hi%elem_of_seq.
    specialize (Hlen k l Hkv). lia.
  - exists (JList l'). simpl. by rewrite Hl'.
Qed.

(** A list-valued field with fewer elements than the largest index of
    [ranking] makes [_sort_by_ranking] raise. *)
Lemma _sort_by_ranking_short hypotheses ranking key l i d :
  hypotheses !! key = Some (JList l) → i ∈ ranking → (length l ≤ i)%nat →
  Reranker._sort_by_ranking hypotheses ranking ≠ Ok d.
Proof.
  intros Hk Hi Hlen H. apply (_sort_by_ranking_lookup _ _ _ key) in H.
  rewrite Hk in H. inversion H as [? v' Hr|]; subst.
  apply ranksort_list in Hr as (l' & Hl' & _).
  apply getitems_Ok in Hl'. apply list_elem_of_lookup in Hi as [j Hj].
  destruct (Forall2_lookup_l _ _ _ _ _ Hl' Hj) as (x & _ & Hx).
  apply lookup_lt_Some in Hx. lia.
Qed.

Lemma dict_getitem_Ok d key v : dict_getitem d key = Ok v ↔ d !! key = Some v.
Proof. unfold dict_getitem. destruct (d !! key); naive_solver. Qed.

(** ** [Reranker.__init__] and [Reranker.rerank] *)

Section Reranker.
Context {constants : Constants} {provider : ScoreProvider}.

(** What a constructed [Reranker] holds.  The constructor calls no metric
    function and prints nothing: the world is unchanged. *)
Lemma __init___Ok_inv metric isometric_alpha return_score w w' self :
  Reranker.__init__ metric isometric_alpha return_score w = (w', Ok self) →
  w' = w ∧
  Reranker.metric self = metric ∧
  Reranker.return_score self = return_score ∧
  Reranker.ranking_indices self =
    (λ scores, Reranker._get_ranking_indices scores "mergesort"
       (if String.eqb metric RERANK_ISOMETRIC_LC
        then "ascending" else "descending")) ∧
  (if String.eqb metric RERANK_BLEU then
     Reranker.scoring_function self = Reranker.partial_sentence_bleu "add-k"
   else if String.eqb metric RERANK_CHRF then
     Reranker.scoring_function self = Reranker.plain_sentence_chrf
   else
     String.prefix RERANK_ISOMETRIC metric = true ∧
     Reranker.scoring_function self =
       Reranker.partial_compute_isometric_score metric isometric_alpha).
Proof.
  unfold Reranker.__init__. intros H.
  apply bind_Ok_inv in H as (w1 & f & Hf & H).
  apply mret_Ok_inv in H as [-> ->]. simpl.
  assert (w1 = w ∧
          if String.eqb metric RERANK_BLEU then
            f = Reranker.partial_sentence_bleu "add-k"
          else if String.eqb metric RERANK_CHRF then
            f = Reranker.plain_sentence_chrf
          else String.prefix RERANK_ISOMETRIC metric = true ∧
               f = Reranker.partial_compute_isometric_score metric
                     isometric_alpha) as [-> Hf'].
  { destruct (String.eqb metric RERANK_BLEU);
      [by apply mret_Ok_inv in Hf as [-> ->]|].
    destruct (String.eqb metric RERANK_CHRF);
      [by apply mret_Ok_inv in Hf as [-> ->]|].
    destruct (String.prefix RERANK_ISOMETRIC metric); [|done].
    by apply mret_Ok_inv in Hf as [-> ->]. }
  split_and!; [done..| |done].
  by destruct (String.eqb metric RERANK_ISOMETRIC_LC).
Qed.

Lemma __init___ranking_Permutation metric isometric_alpha return_score w w'
    self scores :
  Reranker.__init__ metric isometric_alpha return_score w = (w', Ok self) →
  Reranker.ranking_indices self scores ≡ₚ seq 0 (length scores).
Proof.
  intros H. apply __init___Ok_inv in H as (_ & _ & _ & -> & _).
  apply _get_ranking_indices_Permutation.
Qed.

(** The locals [scores] and [ranking] of [rerank]: [ranking] is
    [self.ranking_indices(scores)]; there is one score per element of
    [translations], or, for an isometric metric, per pair of
    [zip(translations, scores)]. *)
Lemma rerank_scores_Ok_inv self hypotheses reference w w' scores ranking :
  Reranker.rerank_scores self hypotheses reference w
    = (w', Ok (scores, ranking)) →
  ranking = Reranker.ranking_indices self scores ∧
  ∃ translations ts,
    hypotheses !! "translations" = Some translations ∧
    py_iter translations = Ok ts ∧
    if String.prefix RERANK_ISOMETRIC (Reranker.metric self) then
      ∃ model_scores ss,
        hypotheses !! "scores" = Some model_scores ∧
        py_iter model_scores = Ok ss ∧
        length scores = length (zip ts ss)
    else length scores = length ts.
Proof.
  unfold Reranker.rerank_scores. intros H.
  apply bind_Ok_inv in H as (w1 & locals1 & H1 & H).
  apply bind_Ok_inv in H as (w2 & locals2 & H2 & H).
  destruct (String.prefix RERANK_ISOMETRIC (Reranker.metric self)).
  - clear H1. inv_run H2. apply mret_Ok_inv in H as [-> [= <- <-]].
    split; [done|]. apply dict_getitem_Ok in Hrun0, Hrun1.
    eexists _, _. split_and!; [done..|].
    eexists _, _. split_and!; [done..|]. by eapply mapM_M_length.
  - apply mret_Ok_inv in H2 as [-> ->].
    destruct (_ || _); [|by apply mret_Ok_inv in H1 as [_ ->]].
    inv_run H1. apply mret_Ok_inv in H as [-> [= <- <-]].
    split; [done|]. apply dict_getitem_Ok in Hrun.
    eexists _, _. split_and!; [done..|]. by eapply mapM_M_length.
Qed.

(** The steps of a successful [rerank]. *)
Lemma rerank_Ok_inv self hypotheses reference w w' out :
  Reranker.rerank self hypotheses reference w = (w', Ok out) →
  ∃ scores ranking reordered,
    Reranker.rerank_scores self hypotheses reference w
      = (w', Ok (scores, ranking)) ∧
    Reranker._sort_by_ranking hypotheses ranking = Ok reordered ∧
    if Reranker.return_score self then
      ∃ scores_sorted best,
        getitems scores ranking = Ok scores_sorted ∧
        head scores_sorted = Some best ∧
        out = <["score" := JNum best]>
                (<["scores" := JList (JNum <$> scores_sorted)]> reordered)
    else out = reordered.
Proof.
  unfold Reranker.rerank. intros H.
  apply bind_Ok_inv in H as (w1 & [scores ranking] & Hs & H).
  apply bind_Ok_inv in H as (w2 & reordered & Hr & H).
  apply lift_Ok_inv in Hr as [-> Hr].
  exists scores, ranking, reordered.
  destruct (Reranker.return_score self).
  - inv_run H. apply dict_getitem_Ok in Hrun0.
    rewrite lookup_insert_eq in Hrun0. injection Hrun0 as <-.
    destruct a as [|best l]; [done|]. simpl in Hrun1.
    injection Hrun1 as <-.
    split_and!; [done..|]. by exists (best :: l), best.
  - apply mret_Ok_inv in H as [-> ->]. done.
Qed.

(** The metric functions return on arguments of their types. *)
Lemma score_with_references_returns metric isometric_alpha return_score w0 w1
    self h references :
  Reranker.__init__ metric isometric_alpha return_score w0 = (w1, Ok self) →
  String.eqb metric RERANK_BLEU || String.eqb metric RERANK_CHRF = true →
  ∀ w, ∃ w' score,
    Reranker.score_with_references (Reranker.scoring_function self) (JStr h)
      references w = (w', Ok score).
Proof.
  intros H Hm w. apply __init___Ok_inv in H as (_ & _ & _ & _ & Hf).
  destruct (String.eqb metric RERANK_BLEU); [rewrite Hf; by eexists _, _|].
  destruct (String.eqb metric RERANK_CHRF); [rewrite Hf; by eexists _, _|].
  done.
Qed.

Lemma score_with_source_returns metric isometric_alpha return_score w0 w1
    self h x source :
  Reranker.__init__ metric isometric_alpha return_score w0 = (w1, Ok self) →
  String.eqb metric RERANK_BLEU || String.eqb metric RERANK_CHRF = false →
  ∀ w, ∃ w' score,
    Reranker.score_with_source (Reranker.scoring_function self) (JStr h)
      (JNum x) (JStr source) w = (w', Ok score).
Proof.
  intros H Hm w. apply __init___Ok_inv in H as (_ & _ & _ & _ & Hf).
  apply orb_false_iff in Hm as [Hb Hc]. rewrite Hb, Hc in Hf.
  destruct Hf as [_ ->].
  by eexists _, _.
Qed.

(** [rerank] computes its scores on a record that has the fields of the
    metric family, with the types of the record shape. *)
Lemma rerank_scores_returns metric isometric_alpha return_score w0 w1 self
    hypotheses reference strs w :
  String.prefix RERANK_ISOMETRIC RERANK_BLEU = false →
  String.prefix RERANK_ISOMETRIC RERANK_CHRF = false →
  Reranker.__init__ metric isometric_alpha return_score w0 = (w1, Ok self) →
  hypotheses !! "translations" = Some (JList (JStr <$> strs)) →
  (String.prefix RERANK_ISOMETRIC metric = true →
   ∃ source model_scores,
     hypotheses !! "text" = Some (JStr source) ∧
     hypotheses !! "scores" = Some (JList model_scores) ∧
     length model_scores = length strs ∧
     Forall (λ s, ∃ x rest, s = JList (JNum x :: rest)) model_scores) →
  ∃ w' scores ranking,
    Reranker.rerank_scores self hypotheses reference w
      = (w', Ok (scores, ranking)).
Proof.
  intros Hbleu Hchrf Hinit Hts Hiso.
  pose proof (__init___Ok_inv _ _ _ _ _ _ Hinit)
    as (_ & Hmetric & _ & _ & Hf).
  unfold Reranker.rerank_scores. rewrite Hmetric.
  destruct (String.prefix RERANK_ISOMETRIC metric) eqn:Hp.
  - destruct (Hiso eq_refl) as (source & ms & Htext & Hms & Hlen & Hall).
    assert (String.eqb metric RERANK_BLEU || String.eqb metric RERANK_CHRF
            = false) as Hm.
    { apply orb_false_iff. split; apply String.eqb_neq; intros ->; congruence. }
    rewrite Hm.
    destruct (mapM_M_returns
      (λ '(hypothesis, hypothesis_score),
         x ← lift (py_getitem hypothesis_score 0);
         Reranker.score_with_source (Reranker.scoring_function self)
           hypothesis x (JStr source))
      (zip (JStr <$> strs) ms)) with w as (w' & scores & Hscores).
    { apply Forall_forall. intros [h s] Hhs w2.
      pose proof (elem_of_zip_l _ _ _ _ Hhs) as Hh.
      pose proof (elem_of_zip_r _ _ _ _ Hhs) as Hs.
      apply list_elem_of_fmap in Hh as (h' & -> & _).
      rewrite Forall_forall in Hall.
      destruct (Hall s Hs) as (x & rest & ->).
      destruct (score_with_source_returns _ _ _ _ _ _ h' x source Hinit Hm w2)
        as (w3 & score & Hscore).
      exists w3, score. by rewrite <-Hscore. }
    exists w', scores, (Reranker.ranking_indices self scores).
    unfold mbind at 1, M_bind at 1. simpl.
    unfold dict_getitem. rewrite Htext, Hts, Hms.
    unfold mbind, M_bind, lift in *. simpl. by rewrite Hscores.
  - assert (String.eqb metric RERANK_BLEU || String.eqb metric RERANK_CHRF
            = true) as Hm.
    { destruct (String.eqb metric RERANK_BLEU); [done|].
      destruct (String.eqb metric RERANK_CHRF); [done|]. by destruct Hf. }
    rewrite Hm.
    destruct (mapM_M_returns
      (λ hypothesis,
         Reranker.score_with_references (Reranker.scoring_function self)
           hypothesis [reference])
      (JStr <$> strs)) with w as (w' & scores & Hscores).
    { apply Forall_forall. intros h (h' & -> & _)%list_elem_of_fmap.
      by eapply score_with_references_returns. }
    exists w', scores, (Reranker.ranking_indices self scores).
    unfold dict_getitem. rewrite Hts.
    unfold mbind, M_bind, lift in *. simpl. by rewrite Hscores.
Qed.

(** One score per hypothesis, when the record has one model score sequence
    per hypothesis. *)
Lemma rerank_scores_length self hypotheses reference w w' scores ranking ts :
  hypotheses !! "translations" = Some (JList ts) →
  (String.prefix RERANK_ISOMETRIC (Reranker.metric self) = true →
   ∃ model_scores,
     hypotheses !! "scores" = Some (JList model_scores) ∧
     length model_scores = length ts) →
  Reranker.rerank_scores self hypotheses reference w
    = (w', Ok (scores, ranking)) →
  length scores = length ts.
Proof.
  intros Hts Hiso H.
  apply rerank_scores_Ok_inv in H as (_ & t & ts' & Ht & Hiter & H).
  rewrite Hts in Ht. injection Ht as <-. injection Hiter as <-.
  destruct (String.prefix _ _); [|done].
  destruct H as (ms & ss & Hms & Hss & ->).
  destruct (Hiso eq_refl) as (ms' & Hms' & Hlen).
  rewrite Hms in Hms'. injection Hms' as ->. injection Hss as <-.
  rewrite length_zip. lia.
Qed.

Lemma rerank_returns metric isometric_alpha return_score w0 w1 self
    hypotheses reference strs w :
  String.prefix RERANK_ISOMETRIC RERANK_BLEU = false →
  String.prefix RERANK_ISOMETRIC RERANK_CHRF = false →
  Reranker.__init__ metric isometric_alpha return_score w0 = (w1, Ok self) →
  hypotheses !! "translations" = Some (JList (JStr <$> strs)) →
  strs ≠ [] →
  (String.prefix RERANK_ISOMETRIC metric = true →
   ∃ source model_scores,
     hypotheses !! "text" = Some (JStr source) ∧
     hypotheses !! "scores" = Some (JList model_scores) ∧
     length model_scores = length strs ∧
     Forall (λ s, ∃ x rest, s = JList (JNum x :: rest)) model_scores) →
  (∀ key l, hypotheses !! key = Some (JList l) →
            (length strs ≤ length l)%nat) →
  ∃ w' out, Reranker.rerank self hypotheses reference w = (w', Ok out).
Proof.
  intros Hbleu Hchrf Hinit Hts Hne Hiso Hframe.
  destruct (rerank_scores_returns _ _ _ _ _ _ _ reference _ w
              Hbleu Hchrf Hinit Hts Hiso) as (w' & scores & ranking & Hs).
  pose proof (__init___Ok_inv _ _ _ _ _ _ Hinit) as (_ & Hmetric & _).
  assert (length scores = length strs) as Hlen.
  { rewrite <-(length_fmap JStr strs).
    eapply rerank_scores_length; [exact Hts| |exact Hs].
    rewrite Hmetric. intros Hp.
    destruct (Hiso Hp) as (_ & ms & _ & Hms & Hl & _).
    exists ms. by rewrite length_fmap. }
  pose proof Hs as [-> _]%rerank_scores_Ok_inv.
  pose proof (__init___ranking_Permutation _ _ _ _ _ _ scores Hinit) as Hperm.
  destruct (_sort_by_ranking_returns hypotheses _ _ Hperm) as [d Hd].
  { intros key l Hl. rewrite Hlen. eauto. }
  unfold Reranker.rerank. rewrite (bind_Ok _ _ _ _ _ Hs).
  unfold mbind, M_bind, lift. rewrite Hd.
  destruct (Reranker.return_score self); [|by eexists _, _].
  destruct (getitems_returns scores (Reranker.ranking_indices self scores))
    as [sorted Hsorted].
  { rewrite Hperm. apply Forall_forall. by intros i [_ ?]%elem_of_seq. }
  rewrite Hsorted. unfold dict_getitem. rewrite lookup_insert_eq.
  destruct sorted as [|best sorted]; [|by eexists _, _].
  apply getitems_length in Hsorted. rewrite Hperm, length_seq, Hlen in Hsorted.
  by destruct strs.
Qed.

(** The fields of the output: each is the [ranksort] of the same field of
    the input, except [scores] and [score] when scores are attached. *)
Lemma rerank_lookup self hypotheses reference w w' out :
  Reranker.rerank self hypotheses reference w = (w', Ok out) →
  ∃ scores ranking,
    Reranker.rerank_scores self hypotheses reference w
      = (w', Ok (scores, ranking)) ∧
    ∀ key,
      Reranker.return_score self = false ∨ (key ≠ "scores" ∧ key ≠ "score") →
      option_Forall2 (λ v v', Reranker.ranksort ranking v = Ok v')
        (hypotheses !! key) (out !! key).
Proof.
  intros (scores & ranking & d & Hs & Hd & Hout)%rerank_Ok_inv.
  exists scores, ranking. split; [done|]. intros key Hkey.
  pose proof (_sort_by_ranking_lookup _ _ _ key Hd) as Hl.
  destruct (Reranker.return_score self).
  - destruct Hkey as [|[? ?]]; [done|].
    destruct Hout as (sorted & best & _ & _ & ->).
    by rewrite !lookup_insert_ne.
  - by subst.
Qed.

End Reranker.

(** ** Strings and the error message *)

Lemma append_assoc (s t u : string) : (s +:+ t) +:+ u = s +:+ (t +:+ u).
Proof.
  induction s as [|c s IH]; [done|].
  change (String c ((s +:+ t) +:+ u) = String c (s +:+ (t +:+ u))).
  by rewrite IH.
Qed.

Lemma append_empty_r (s : string) : s +:+ "" = s.
Proof.
  induction s as [|c s IH]; [done|].
  change (String c (s +:+ "") = String c s). by rewrite IH.
Qed.

Lemma occurs_in_refl s : occurs_in s s.
Proof. exists "", "". simpl. by rewrite append_empty_r. Qed.

Lemma occurs_in_prepend s t pre : occurs_in s t → occurs_in s (pre +:+ t).
Proof. intros (a & b & ->). exists (pre +:+ a), b. by rewrite append_assoc. Qed.

Lemma occurs_in_postpend s t post : occurs_in s t → occurs_in s (t +:+ post).
Proof.
  intros (a & b & ->). exists a, (b +:+ post). by rewrite !append_assoc.
Qed.

Lemma occurs_in_concat sep (l : list string) s :
  s ∈ l → occurs_in s (String.concat sep l).
Proof.
  induction l as [|x l IH]; [by intros ?%elem_of_nil|].
  intros [->|Hs]%elem_of_cons; simpl.
  - destruct l; [apply occurs_in_refl|].
    apply occurs_in_postpend, occurs_in_refl.
  - destruct l as [|y l]; [by apply elem_of_nil in Hs|].
    by apply occurs_in_prepend, occurs_in_prepend, IH.
Qed.

(** Each string of a list is quoted in the [str] of the list. *)
Lemma occurs_in_py_str_list (l : list string) s :
  s ∈ l → occurs_in (py_repr s) (py_str_list l).
Proof.
  intros Hs. unfold py_str_list.
  apply occurs_in_prepend, occurs_in_postpend, occurs_in_concat.
  apply list_elem_of_fmap. eauto.
Qed.

(** ** The stable order of ties under each direction *)

(** Ascending: hypotheses with equal scores keep their input order. *)
Lemma _get_ranking_indices_ascending_ties scores kind p q i j x y :
  let ranking := Reranker._get_ranking_indices scores kind "ascending" in
  ranking !! p = Some i → ranking !! q = Some j → p < q →
  scores !! i = Some x → scores !! j = Some y → (x == y)%Q →
  i < j.
Proof. apply np_argsort_stable. Qed.

(** Descending: the ascending ranking is reversed as a whole, so
    hypotheses with equal scores come out in the reverse of their input
    order. *)
Lemma _get_ranking_indices_descending_ties scores kind p q i j x y :
  let ranking := Reranker._get_ranking_indices scores kind "descending" in
  ranking !! p = Some i → ranking !! q = Some j → p < q →
  scores !! i = Some x → scores !! j = Some y → (x == y)%Q →
  j < i.
Proof.
  simpl. unfold Reranker._get_ranking_indices. simpl.
  intros [Hp Hlp]%reverse_lookup_Some [Hq Hlq]%reverse_lookup_Some Hpq Hx Hy Hxy.
  eapply (np_argsort_stable scores kind); [exact Hq|exact Hp|lia|done..|].
  by symmetry.
Qed.

(** * The claims *)

Section Claims.
Context {constants : Constants} {provider : ScoreProvider}.

(** C2. After [rerank], the computed scores read in the output order (the
    order [ranking] in which the hypotheses of [translations] are output)
    are non-increasing for every accepted metric other than the
    length-controlled isometric one (so for the BLEU-like and ChrF-like
    metrics and the other isometric variants), and non-decreasing for the
    length-controlled isometric one. *)
Theorem rerank_direction metric isometric_alpha return_score w0 w1 self
    hypotheses reference w w' out :
  Reranker.__init__ metric isometric_alpha return_score w0 = (w1, Ok self) →
  Reranker.rerank self hypotheses reference w = (w', Ok out) →
  ∃ scores ranking in_order,
    Reranker.rerank_scores self hypotheses reference w
      = (w', Ok (scores, ranking)) ∧
    (∀ ts, hypotheses !! "translations" = Some (JList ts) →
           ∃ ts', getitems ts ranking = Ok ts' ∧
                  out !! "translations" = Some (JList ts')) ∧
    getitems scores ranking = Ok in_order ∧
    (metric ≠ RERANK_ISOMETRIC_LC →
     StronglySorted (λ a b, (b <= a)%Q) in_order) ∧
    (metric = RERANK_ISOMETRIC_LC →
     StronglySorted (λ a b, (a <= b)%Q) in_order).
Proof.
  intros Hinit Hrun.
  destruct (rerank_lookup _ _ _ _ _ _ Hrun) as (scores & ranking & Hs & Hout).
  pose proof Hs as [-> _]%rerank_scores_Ok_inv.
  apply __init___Ok_inv in Hinit as (_ & _ & _ & Hri & _).
  rewrite Hri in *. clear Hri.
  assert (∀ ts, hypotheses !! "translations" = Some (JList ts) →
           ∃ ts', getitems ts
                    (Reranker._get_ranking_indices scores "mergesort"
                       (if String.eqb metric RERANK_ISOMETRIC_LC
                        then "ascending" else "descending")) = Ok ts' ∧
                  out !! "translations" = Some (JList ts')) as Hts.
  { intros ts Hts.
    assert (option_Forall2 (λ v v', Reranker.ranksort _ v = Ok v')
              (hypotheses !! "translations") (out !! "translations")) as Ho
      by (apply Hout; by right).
    rewrite Hts in Ho. inversion Ho as [? v' Hr Heq1 Heq2|].
    apply ranksort_list in Hr as (ts' & ? & ->). by exists ts'. }
  destruct (String.eqb_spec metric RERANK_ISOMETRIC_LC) as [Heq|Hne].
  - destruct (_get_ranking_indices_ascending scores "mergesort")
      as (in_order & Hget & Hsorted).
    eexists scores, _, in_order. split_and!; [exact Hs|done..].
  - destruct (_get_ranking_indices_descending scores "mergesort")
      as (in_order & Hget & Hsorted).
    eexists scores, _, in_order. split_and!; [exact Hs|done..].
Qed.

(** C3. For a record that satisfies the preconditions of [rerank]
    ([translations] is a non-empty list of strings; for an isometric
    metric [text] is present and [scores] holds one non-empty sequence of
    numeric model scores per hypothesis), the [translations] of the output
    record is a permutation of the [translations] of the input record.
    [rerank] does return such an output record when no list-valued field
    of the record is shorter than [translations].  The identifiers of the
    overlap metrics are assumed not to carry the isometric prefix. *)
Theorem rerank_translations_Permutation metric isometric_alpha return_score
    w0 w1 self hypotheses reference strs w :
  String.prefix RERANK_ISOMETRIC RERANK_BLEU = false →
  String.prefix RERANK_ISOMETRIC RERANK_CHRF = false →
  Reranker.__init__ metric isometric_alpha return_score w0 = (w1, Ok self) →
  hypotheses !! "translations" = Some (JList (JStr <$> strs)) →
  strs ≠ [] →
  (String.prefix RERANK_ISOMETRIC metric = true →
   ∃ source model_scores,
     hypotheses !! "text" = Some (JStr source) ∧
     hypotheses !! "scores" = Some (JList model_scores) ∧
     length model_scores = length strs ∧
     Forall (λ s, ∃ x rest, s = JList (JNum x :: rest)) model_scores) →
  (∀ w' out,
     Reranker.rerank self hypotheses reference w = (w', Ok out) →
     ∃ ts', out !! "translations" = Some (JList ts') ∧
            ts' ≡ₚ JStr <$> strs) ∧
  ((∀ key l, hypotheses !! key = Some (JList l) →
             (length strs ≤ length l)%nat) →
   ∃ w' out, Reranker.rerank self hypotheses reference w = (w', Ok out)).
Proof.
  intros Hbleu Hchrf Hinit Hts Hne Hiso. split; [|by eapply rerank_returns].
  intros w' out Hrun.
  destruct (rerank_lookup _ _ _ _ _ _ Hrun) as (scores & ranking & Hs & Hout).
  assert (option_Forall2 (λ v v', Reranker.ranksort ranking v = Ok v')
            (hypotheses !! "translations") (out !! "translations")) as Ho
    by (apply Hout; by right).
  rewrite Hts in Ho. inversion Ho as [? v' Hr Heq1 Heq2|].
  apply ranksort_list in Hr as (ts' & Hget & ->).
  exists ts'. split; [done|].
  eapply getitems_Permutation; [|exact Hget].
  pose proof (__init___Ok_inv _ _ _ _ _ _ Hinit) as (_ & Hmetric & _).
  assert (length scores = length (JStr <$> strs)) as <-.
  { eapply rerank_scores_length; [exact Hts| |exact Hs].
    rewrite Hmetric. intros Hp.
    destruct (Hiso Hp) as (_ & ms & _ & Hms & Hl & _).
    exists ms. by rewrite length_fmap. }
  apply rerank_scores_Ok_inv in Hs as [-> _].
  by eapply __init___ranking_Permutation.
Qed.

(** C4, as amended.  When [rerank] returns, every field that is not a list
    is unchanged, and every list-valued field, whatever its length, is
    rebuilt with the ranking used for [translations]: it has one element
    per index of the ranking, and its element [j] is the input's element
    [ranking[j]].  The ranking is a permutation of the indices of the
    computed scores.  The fields [scores] and [score] are excepted when
    scores are attached. *)
Theorem rerank_fields metric isometric_alpha return_score w0 w1 self
    hypotheses reference w w' out :
  Reranker.__init__ metric isometric_alpha return_score w0 = (w1, Ok self) →
  Reranker.rerank self hypotheses reference w = (w', Ok out) →
  ∃ scores ranking,
    Reranker.rerank_scores self hypotheses reference w
      = (w', Ok (scores, ranking)) ∧
    ranking ≡ₚ seq 0 (length scores) ∧
    ∀ key v,
      hypotheses !! key = Some v →
      return_score = false ∨ (key ≠ "scores" ∧ key ≠ "score") →
      match v with
      | JList l =>
          ∃ l', out !! key = Some (JList l') ∧
                length l' = length ranking ∧
                ∀ j i, ranking !! j = Some i →
                       is_Some (l !! i) ∧ l' !! j = l !! i
      | _ => out !! key = Some v
      end.
Proof.
  intros Hinit Hrun.
  destruct (rerank_lookup _ _ _ _ _ _ Hrun) as (scores & ranking & Hs & Hout).
  exists scores, ranking. split; [done|]. split.
  { apply rerank_scores_Ok_inv in Hs as [-> _].
    by eapply __init___ranking_Permutation. }
  apply __init___Ok_inv in Hinit as (_ & _ & Hrs & _). rewrite Hrs in Hout.
  intros key v Hv Hkey. specialize (Hout key Hkey). rewrite Hv in Hout.
  inversion Hout as [? v' Hr Heq1 Heq2|]. symmetry in Heq2.
  destruct v as [| | | |l|]; try (by injection Hr as <-).
  apply ranksort_list in Hr as (l' & Hget & ->).
  exists l'. split_and!; [done|by eapply getitems_length|].
  intros j i Hj. pose proof (getitems_lookup _ _ _ _ _ Hget Hj) as Hl.
  split; [|done]. rewrite <-Hl. apply lookup_lt_is_Some.
  rewrite (getitems_length _ _ _ Hget). by eapply lookup_lt_Some.
Qed.

(** C7. With scores attached, the output record carries under [scores]
    the computed scores reordered by the ranking, and under [score] the
    first of them, which is the maximum of the computed scores when the
    direction is descending and their minimum when it is ascending (the
    length-controlled isometric metric). *)
Theorem rerank_attaches_scores metric isometric_alpha w0 w1 self hypotheses
    reference w w' out :
  Reranker.__init__ metric isometric_alpha true w0 = (w1, Ok self) →
  Reranker.rerank self hypotheses reference w = (w', Ok out) →
  ∃ scores ranking scores_sorted best,
    Reranker.rerank_scores self hypotheses reference w
      = (w', Ok (scores, ranking)) ∧
    getitems scores ranking = Ok scores_sorted ∧
    out !! "scores" = Some (JList (JNum <$> scores_sorted)) ∧
    out !! "score" = Some (JNum best) ∧
    head scores_sorted = Some best ∧
    best ∈ scores ∧
    (metric ≠ RERANK_ISOMETRIC_LC → Forall (λ s, (s <= best)%Q) scores) ∧
    (metric = RERANK_ISOMETRIC_LC → Forall (λ s, (best <= s)%Q) scores).
Proof.
  intros Hinit Hrun.
  pose proof (__init___Ok_inv _ _ _ _ _ _ Hinit) as (_ & _ & Hrs & Hri & _).
  apply rerank_Ok_inv in Hrun as (scores & ranking & d & Hs & Hd & Hout).
  rewrite Hrs in Hout. destruct Hout as (sorted & best & Hget & Hhead & ->).
  exists scores, ranking, sorted, best.
  pose proof Hs as [Hranking _]%rerank_scores_Ok_inv.
  assert (sorted ≡ₚ scores) as Hperm.
  { eapply getitems_Permutation; [|exact Hget]. rewrite Hranking.
    by eapply __init___ranking_Permutation. }
  destruct sorted as [|best' rest]; [done|]. injection Hhead as ->.
  split_and!; [done|done| |by rewrite lookup_insert_eq|done| | |].
  - by rewrite lookup_insert_ne, lookup_insert_eq.
  - rewrite <-Hperm. apply elem_of_cons. by left.
  - intros Hne. rewrite <-Hperm.
    destruct (_get_ranking_indices_descending scores "mergesort")
      as (in_order & Hget' & Hsorted).
    rewrite Hranking, Hri in Hget.
    destruct (String.eqb_spec metric RERANK_ISOMETRIC_LC); [done|].
    rewrite Hget in Hget'. injection Hget' as <-.
    apply StronglySorted_inv in Hsorted as [_ Hall].
    constructor; [apply Qle_refl|done].
  - intros Heq. rewrite <-Hperm.
    destruct (_get_ranking_indices_ascending scores "mergesort")
      as (in_order & Hget' & Hsorted).
    rewrite Hranking, Hri in Hget.
    destruct (String.eqb_spec metric RERANK_ISOMETRIC_LC); [|done].
    rewrite Hget in Hget'. injection Hget' as <-.
    apply StronglySorted_inv in Hsorted as [_ Hall].
    constructor; [apply Qle_refl|done].
Qed.

(** C9. With scores attached, [rerank] overwrites the field [scores]:
    whatever the input record holds there, the output holds the flat list
    of the computed scores in ranked order.  Every other field except
    [score] is the reordered field of the same name of the input, so the
    model score sequences of the input are kept under no other name. *)
Theorem rerank_overwrites_scores metric isometric_alpha w0 w1 self
    hypotheses reference w w' out :
  Reranker.__init__ metric isometric_alpha true w0 = (w1, Ok self) →
  Reranker.rerank self hypotheses reference w = (w', Ok out) →
  ∃ scores ranking scores_sorted,
    Reranker.rerank_scores self hypotheses reference w
      = (w', Ok (scores, ranking)) ∧
    getitems scores ranking = Ok scores_sorted ∧
    out !! "scores" = Some (JList (JNum <$> scores_sorted)) ∧
    ∀ key, key ≠ "scores" → key ≠ "score" →
      option_Forall2 (λ v v', Reranker.ranksort ranking v = Ok v')
        (hypotheses !! key) (out !! key).
Proof.
  intros Hinit Hrun.
  pose proof (__init___Ok_inv _ _ _ _ _ _ Hinit) as (_ & _ & Hrs & _).
  destruct (rerank_lookup _ _ _ _ _ _ Hrun) as (scores & ranking & Hs & Hl).
  apply rerank_Ok_inv in Hrun as (scores' & ranking' & d & Hs' & Hd & Hout).
  rewrite Hs in Hs'. injection Hs' as <- <-.
  rewrite Hrs in Hout. destruct Hout as (sorted & best & Hget & _ & ->).
  exists scores, ranking, sorted. split_and!; [done..| |].
  - by rewrite lookup_insert_ne, lookup_insert_eq.
  - intros key ??. apply Hl. by right.
Qed.

(** C5. Constructing a [Reranker] with a metric identifier that is neither
    the BLEU-like nor the ChrF-like identifier and does not begin with the
    isometric prefix raises the configuration error; no metric function
    has been called (the world is unchanged) and the message lists
    [RERANK_METRICS], each identifier of it quoted.  For every recognized
    identifier the construction succeeds. *)
Theorem init_recognized_metrics metric isometric_alpha return_score w :
  (metric ≠ RERANK_BLEU → metric ≠ RERANK_CHRF →
   String.prefix RERANK_ISOMETRIC metric = false →
   ∃ msg,
     Reranker.__init__ metric isometric_alpha return_score w
       = (w, Raise (SockeyeError msg)) ∧
     msg = "Scoring metric '" +:+ metric +:+ "' unknown. Choices are: "
           +:+ py_str_list RERANK_METRICS ∧
     ∀ m, m ∈ RERANK_METRICS → occurs_in (py_repr m) msg) ∧
  (metric = RERANK_BLEU ∨ metric = RERANK_CHRF ∨
   String.prefix RERANK_ISOMETRIC metric = true →
   ∃ self,
     Reranker.__init__ metric isometric_alpha return_score w = (w, Ok self)).
Proof.
  unfold Reranker.__init__. split.
  - intros Hb%String.eqb_neq Hc%String.eqb_neq Hp. rewrite Hb, Hc, Hp.
    eexists. split_and!; [done..|]. intros m Hm.
    do 3 apply occurs_in_prepend. by apply occurs_in_py_str_list.
  - intros Hm.
    assert (String.eqb metric RERANK_BLEU = true ∨
            String.eqb metric RERANK_CHRF = true ∨
            String.prefix RERANK_ISOMETRIC metric = true) as Hm'.
    { destruct Hm as [->|[->|?]]; rewrite ?String.eqb_refl; auto. }
    destruct (String.eqb metric RERANK_BLEU); [by eexists|].
    destruct (String.eqb metric RERANK_CHRF); [by eexists|].
    destruct (String.prefix RERANK_ISOMETRIC metric); [by eexists|].
    by destruct Hm' as [|[|]].
Qed.

(** C6. For a record whose [translations] has length 0 or 1 the loop body
    keeps the record as it is and calls no metric function (the world is
    unchanged); when the whole record is output, it is output as parsed. *)
Theorem rerank_line_degenerate reranker hypotheses reference ts w :
  hypotheses !! "translations" = Some (JList ts) →
  (length ts ≤ 1)%nat →
  rerank_line reranker hypotheses reference w
    = (w, Ok (hypotheses, length ts)) ∧
  ∀ args i,
    output_best args = false →
    process_line reranker args (i, (reference, hypotheses)) w
    = (World (scoring_calls w)
         (output_stream w ++ [print_json_dumps hypotheses]), Ok ()).
Proof.
  intros Hts Hlen.
  assert (rerank_line reranker hypotheses reference w
          = (w, Ok (hypotheses, length ts))) as Hline.
  { unfold rerank_line, check_condition, dict_getitem. rewrite Hts.
    rewrite bool_decide_true by eauto.
    unfold mbind, M_bind, lift, mret, M_ret. simpl.
    by rewrite bool_decide_false by lia. }
  split; [done|]. intros args i Hbest. unfold process_line.
  rewrite (bind_Ok _ _ _ _ _ Hline). unfold output_line. by rewrite Hbest.
Qed.

(** C8. In best-hypothesis mode, for ranked translations
    [["", "", "good translation"]], without substitution of the reference
    and with the scan for a non-blank hypothesis, the line printed is
    ["good translation"]. *)
Theorem output_line_fallback_chain args reranked_hypotheses reference w :
  reranked_hypotheses !! "translations"
    = Some (JList [JStr ""; JStr ""; JStr "good translation"]) →
  output_best args = true →
  output_reference_instead_of_blank args = false →
  output_best_non_blank args = true →
  output_line args reranked_hypotheses 3 reference w
  = (World (scoring_calls w)
       (output_stream w ++ [print_value (JStr "good translation")]), Ok ()).
Proof.
  intros Hts Hbest Href Hscan. unfold output_line.
  rewrite Hbest, Href, Hscan. simpl.
  unfold mbind, M_bind, lift, dict_getitem. by rewrite Hts.
Qed.

(** C10. The scan for a non-blank hypothesis is guarded by
    [num_hypotheses > 1]: with at most one hypothesis the flag that
    enables it changes nothing, and for a record whose only hypothesis is
    the empty string, without substitution of the reference and with the
    scan enabled, the line printed is the empty string. *)
Theorem process_line_single_blank reranker args i reference hypotheses w :
  hypotheses !! "translations" = Some (JList [JStr ""]) →
  output_best args = true →
  output_reference_instead_of_blank args = false →
  output_best_non_blank args = true →
  process_line reranker args (i, (reference, hypotheses)) w
  = (World (scoring_calls w) (output_stream w ++ [print_value (JStr "")]),
     Ok ()) ∧
  ∀ reranked_hypotheses num_hypotheses w',
    (num_hypotheses ≤ 1)%nat →
    output_line args reranked_hypotheses num_hypotheses reference w'
    = output_line
        {| metric := metric args;
           isometric_alpha := isometric_alpha args;
           return_score := return_score args;
           output_best := output_best args;
           output_reference_instead_of_blank :=
             output_reference_instead_of_blank args;
           output_best_non_blank := false |}
        reranked_hypotheses num_hypotheses reference w'.
Proof.
  intros Hts Hbest Href Hscan. split.
  - destruct (rerank_line_degenerate reranker hypotheses reference
                [JStr ""] w Hts) as [Hline _]; [simpl; lia|].
    unfold process_line. rewrite (bind_Ok _ _ _ _ _ Hline).
    unfold output_line. rewrite Hbest, Href, Hscan. simpl.
    unfold mbind, M_bind, lift, dict_getitem. by rewrite Hts.
  - intros d n w' Hn. unfold output_line. simpl.
    rewrite (bool_decide_false (1 < n)) by lia.
    destruct (output_best args); [|done].
    apply bind_ext. intros best w''. by rewrite !andb_false_r.
Qed.

End Claims.

(** C1. The ranking is not stable under the descending direction: for the
    scores [[3, 5, 5, 1]] the code returns [[2, 1, 0, 3]], the two tied
    hypotheses in the reverse of their input order, where a stable
    descending ranking is [[1, 2, 0, 3]]; the ascending ranking of the
    same scores keeps the tied hypotheses in input order.  A [Reranker]
    for a descending metric outputs the hypotheses in that order. *)
Theorem descending_ranking_reverses_ties :
  Reranker._get_ranking_indices [3; 5; 5; 1]%Q "mergesort" "descending"
    = [2; 1; 0; 3] ∧
  Reranker._get_ranking_indices [3; 5; 5; 1]%Q "mergesort" "ascending"
    = [3; 0; 1; 2] ∧
  Sample.field "translations"
    (Sample.rerank "bleu" true
       {[ "translations" := Sample.strs ["abc"; "abcde"; "fghij"; "a"] ]}
       "reference")
    = Some (Sample.strs ["fghij"; "abcde"; "abc"; "a"]) ∧
  Sample.field "scores"
    (Sample.rerank "bleu" true
       {[ "translations" := Sample.strs ["abc"; "abcde"; "fghij"; "a"] ]}
       "reference")
    = Some (Sample.nums [5; 5; 3; 1]%Q).
Proof. split_and!; by vm_compute. Qed.

(** * Further properties of the code *)

(** ** [Reranker._get_ranking_indices] *)




(** ** [Reranker._sort_by_ranking] *)

Lemma getitems_returns_iff {A} (l : list A) ranking :
  (∃ l', getitems l ranking = Ok l') ↔ Forall (λ i, i < length l) ranking.
Proof.
  split; [|apply getitems_returns].
  intros [l' H]. apply getitems_Ok in H. apply Forall_forall.
  intros i [j Hj]%list_elem_of_lookup.
  destruct (Forall2_lookup_l _ _ _ _ _ H Hj) as (x & _ & Hx).
  by eapply lookup_lt_Some.
Qed.

Lemma result_bind_Raise_inv {A B} (r : result A) (f : A → result B) e :
  r ≫= f = Raise e → r = Raise e ∨ ∃ a, r = Ok a ∧ f a = Raise e.
Proof. destruct r; [right|left]; [eauto | by injection H as ->]. Qed.

Lemma getitems_Raise {A} (l : list A) ranking e :
  getitems l ranking = Raise e → e = IndexError.
Proof.
  unfold getitems. induction ranking as [|i r IH]; simpl; [done|].
  intros [H|(x & _ & H)]%result_bind_Raise_inv.
  - unfold list_getitem in H. destruct (l !! i); by simplify_eq.
  - apply result_bind_Raise_inv in H as [H|(k & _ & H)]; [by apply IH|done].
Qed.

Lemma ranksort_Raise ranking v e :
  Reranker.ranksort ranking v = Raise e → e = IndexError.
Proof.
  destruct v as [| | | |l|]; try done. simpl.
  intros [H|(x & _ & H)]%result_bind_Raise_inv; [|done].
  by eapply getitems_Raise.
Qed.

Lemma ranksort_functional ranking v v1 v2 :
  Reranker.ranksort ranking v = Ok v1 →
  Reranker.ranksort ranking v = Ok v2 → v1 = v2.
Proof. congruence. Qed.

(** [_sort_by_ranking] returns [d] exactly when every field of [d] is the
    [ranksort] of the same field of the input. *)
Lemma _sort_by_ranking_Ok_iff hypotheses ranking d :
  Reranker._sort_by_ranking hypotheses ranking = Ok d ↔
  ∀ key, option_Forall2 (λ v v', Reranker.ranksort ranking v = Ok v')
           (hypotheses !! key) (d !! key).
Proof.
  split; [intros H key; by apply _sort_by_ranking_lookup|].
  intros H.
  destruct (sort_items_returns ranking (map_to_list hypotheses)) as [d' Hd'].
  { apply Forall_forall. intros [k v] Hkv%elem_of_map_to_list. simpl.
    specialize (H k). rewrite Hkv in H. inversion H; subst. eauto. }
  assert (d' = d) as <-; [|done].
  apply map_eq. intros key.
  pose proof (_sort_by_ranking_lookup _ _ _ key Hd') as H'.
  specialize (H key). destruct H; inversion H'; subst; [|done].
  f_equal. congruence.
Qed.

Lemma _sort_by_ranking_Raise hypotheses ranking e :
  Reranker._sort_by_ranking hypotheses ranking = Raise e → e = IndexError.
Proof.
  unfold Reranker._sort_by_ranking.
  induction (map_to_list hypotheses) as [|[k v] items IH]; simpl; [done|].
  intros [H|(d & _ & H)]%result_bind_Raise_inv; [by apply IH|].
  apply result_bind_Raise_inv in H as [H|(v' & _ & H)]; [|done].
  by eapply ranksort_Raise.
Qed.

Lemma _sort_by_ranking_returns_when hypotheses ranking :
  (∀ key l i, hypotheses !! key = Some (JList l) → i ∈ ranking →
              i < length l) →
  ∃ d, Reranker._sort_by_ranking hypotheses ranking = Ok d.
Proof.
  intros H. apply sort_items_returns. apply Forall_forall.
  intros [key v] Hkv%elem_of_map_to_list. simpl.
  destruct v as [| | | |l|]; try by eexists.
  destruct (getitems_returns l ranking) as [l' Hl'].
  { apply Forall_forall. intros i Hi. by eapply H. }
  exists (JList l'). simpl. by rewrite Hl'.
Qed.

(** X4. [_sort_by_ranking] returns exactly when no list-valued field is
    too short for an index of the ranking; otherwise it raises
    [IndexError], and no other error. *)
Theorem sort_by_ranking_returns_iff hypotheses ranking :
  ((∃ d, Reranker._sort_by_ranking hypotheses ranking = Ok d) ↔
   (∀ key l i, hypotheses !! key = Some (JList l) → i ∈ ranking →
               i < length l)) ∧
  (∀ e, Reranker._sort_by_ranking hypotheses ranking = Raise e →
        e = IndexError).
Proof.
  split; [|apply _sort_by_ranking_Raise]. split.
  - intros [d Hd] key l i Hl Hi.
    pose proof (_sort_by_ranking_lookup _ _ _ key Hd) as H.
    rewrite Hl in H. inversion H as [? v' Hr|]; subst.
    apply ranksort_list in Hr as (l' & Hl' & _).
    assert (Forall (λ i, i < length l) ranking) as Hall
      by (apply getitems_returns_iff; eauto).
    rewrite Forall_forall in Hall. by apply Hall.
  - apply _sort_by_ranking_returns_when.
Qed.

Lemma _sort_by_ranking_dom hypotheses ranking d :
  Reranker._sort_by_ranking hypotheses ranking = Ok d →
  dom d = dom hypotheses.
Proof.
  intros Hd. apply set_eq. intros key. rewrite !elem_of_dom.
  pose proof (_sort_by_ranking_lookup _ _ _ key Hd) as H.
  inversion H; split; intros [? ?]; by (eauto || congruence).
Qed.

(** X5. The record that [_sort_by_ranking] returns has the keys of the
    input record, every list-valued field has one element per index of
    the ranking, and a field that is not a list stays what it was. *)
Theorem sort_by_ranking_shape hypotheses ranking d :
  Reranker._sort_by_ranking hypotheses ranking = Ok d →
  dom d = dom hypotheses ∧
  (∀ key l, hypotheses !! key = Some (JList l) →
            ∃ l', d !! key = Some (JList l') ∧ length l' = length ranking) ∧
  (∀ key v, hypotheses !! key = Some v → (∀ l, v ≠ JList l) →
            d !! key = Some v).
Proof.
  intros Hd. split_and!.
  - by eapply _sort_by_ranking_dom.
  - intros key l Hl.
    pose proof (_sort_by_ranking_lookup _ _ _ key Hd) as H.
    rewrite Hl in H. inversion H as [? v' Hr|]; subst.
    apply ranksort_list in Hr as (l' & Hl' & ->).
    exists l'. split; [done|]. by eapply getitems_length.
  - intros key v Hv Hnl.
    pose proof (_sort_by_ranking_lookup _ _ _ key Hd) as H.
    rewrite Hv in H. inversion H as [? v' Hr|]; subst.
    rewrite ranksort_not_list in Hr by done. congruence.
Qed.

(** X6. Sorting by the identity ranking [[0, ..., n-1]] returns the record
    unchanged when every list-valued field has [n] elements. *)
Theorem sort_by_identity_ranking hypotheses n :
  (∀ key l, hypotheses !! key = Some (JList l) → length l = n) →
  Reranker._sort_by_ranking hypotheses (seq 0 n) = Ok hypotheses.
Proof.
  intros Hlen. apply _sort_by_ranking_Ok_iff. intros key.
  destruct (hypotheses !! key) as [v|] eqn:Hv; constructor.
  destruct v as [| | | |l|]; try done.
  simpl. rewrite <-(Hlen key l Hv). by rewrite getitems_seq.
Qed.

Lemma getitems_compose {A} (l l1 l2 : list A) r1 r2 r12 :
  getitems l r1 = Ok l1 → getitems r1 r2 = Ok r12 →
  getitems l1 r2 = Ok l2 ↔ getitems l r12 = Ok l2.
Proof.
  rewrite !getitems_Ok. intros H1 H12.
  revert l2. induction H12 as [|j i r2 r12 Hj _ IH]; intros l2.
  - split; inversion 1; constructor.
  - assert (l1 !! j = l !! i) as Heq.
    { destruct (Forall2_lookup_l _ _ _ _ _ H1 Hj) as (x & -> & Hx). done. }
    split; inversion 1; subst; constructor; try congruence; by apply IH.
Qed.

(** X7. Sorting twice is sorting once by the composed ranking: after a
    sort by [r1], a sort by [r2] gives what a sort of the input by
    [[r1[j] for j in r2]] gives. *)
Theorem sort_by_ranking_compose hypotheses r1 r2 r12 d1 :
  Reranker._sort_by_ranking hypotheses r1 = Ok d1 →
  getitems r1 r2 = Ok r12 →
  Reranker._sort_by_ranking d1 r2 = Reranker._sort_by_ranking hypotheses r12
  ∧ ∃ d2, Reranker._sort_by_ranking d1 r2 = Ok d2.
Proof.
  intros H1 H12.
  assert (∃ d2, Reranker._sort_by_ranking d1 r2 = Ok d2) as [d2 H2].
  { apply _sort_by_ranking_returns_when. intros key l1 i Hl1 Hi.
    pose proof (_sort_by_ranking_lookup _ _ _ key H1) as Ha.
    rewrite Hl1 in Ha. inversion Ha as [v ? Hv|]; subst.
    destruct v as [| | | |l|]; try done.
    apply ranksort_list in Hv as (l1' & Hget & [= <-]).
    rewrite (getitems_length _ _ _ Hget).
    assert (Forall (λ i, i < length r1) r2) as Hall
      by (apply getitems_returns_iff; eauto).
    rewrite Forall_forall in Hall. by apply Hall. }
  split; [|by exists d2]. rewrite H2. symmetry.
  apply _sort_by_ranking_Ok_iff. intros key.
  pose proof (_sort_by_ranking_lookup _ _ _ key H1) as Ha.
  pose proof (_sort_by_ranking_lookup _ _ _ key H2) as Hb.
  destruct Ha as [v v1 Hv|]; inversion Hb as [? v2 Hv2|]; subst;
    constructor.
  destruct v as [| | | |l|]; try (injection Hv as <-; exact Hv2).
  apply ranksort_list in Hv as (l1 & Hl1 & ->).
  apply ranksort_list in Hv2 as (l2 & Hl2 & ->).
  apply ranksort_list. exists l2. split; [|done].
  by apply (getitems_compose l l1 l2 r1 r2 r12).
Qed.

(** ** [Reranker.rerank] *)

Section RerankerMore.
Context {constants : Constants} {provider : ScoreProvider}.

Lemma world_eta w : World (scoring_calls w) (output_stream w) = w.
Proof. by destruct w. Qed.

(** The loop over the hypotheses for an overlap metric: one call per
    hypothesis, in input order. *)
Lemma mapM_sentence_bleu smooth_method references (strs : list string) w :
  mapM (λ hypothesis,
          Reranker.score_with_references
            (Reranker.partial_sentence_bleu smooth_method) hypothesis
            references) (JStr <$> strs) w
  = (World (scoring_calls w ++
              ((λ h, call_sentence_bleu h references smooth_method) <$> strs))%list
       (output_stream w),
     Ok ((λ h, sentence_bleu h references smooth_method) <$> strs)).
Proof.
  revert w. induction strs as [|h strs IH]; intros w; simpl.
  - by rewrite app_nil_r, world_eta.
  - unfold mbind at 1, M_bind at 1. simpl.
    unfold mbind at 1, M_bind at 1. rewrite IH. simpl.
    by rewrite <-app_assoc.
Qed.

Lemma mapM_sentence_chrf references (strs : list string) w :
  mapM (λ hypothesis,
          Reranker.score_with_references Reranker.plain_sentence_chrf
            hypothesis references) (JStr <$> strs) w
  = (World (scoring_calls w ++
              ((λ h, call_sentence_chrf h references) <$> strs))%list
       (output_stream w),
     Ok ((λ h, sentence_chrf h references) <$> strs)).
Proof.
  revert w. induction strs as [|h strs IH]; intros w; simpl.
  - by rewrite app_nil_r, world_eta.
  - unfold mbind at 1, M_bind at 1. simpl.
    unfold mbind at 1, M_bind at 1. rewrite IH. simpl.
    by rewrite <-app_assoc.
Qed.

(** After the scores are computed [rerank] makes no call and prints
    nothing: it ends in the world in which [rerank_scores] ends. *)
Lemma rerank_world self hypotheses reference w w' r :
  Reranker.rerank self hypotheses reference w = (w', r) →
  ∃ r0, Reranker.rerank_scores self hypotheses reference w = (w', r0).
Proof.
  unfold Reranker.rerank. unfold mbind at 1, M_bind at 1.
  destruct (Reranker.rerank_scores self hypotheses reference w)
    as [w1 [[scores ranking]|e]]; [|intros [= <- <-]; eauto].
  unfold mbind, M_bind, lift, mret, M_ret.
  destruct (Reranker._sort_by_ranking hypotheses ranking);
    [|intros [= <- <-]; eauto].
  destruct (Reranker.return_score self); [|intros [= <- <-]; eauto].
  destruct (getitems scores ranking); [|intros [= <- <-]; eauto].
  destruct (dict_getitem _ _) as [v|]; [|intros [= <- <-]; eauto].
  destruct (py_getitem v 0); intros [= <- <-]; eauto.
Qed.

Lemma rerank_scores_overlap self hypotheses reference translations w :
  String.eqb (Reranker.metric self) RERANK_BLEU
    || String.eqb (Reranker.metric self) RERANK_CHRF = true →
  String.prefix RERANK_ISOMETRIC (Reranker.metric self) = false →
  hypotheses !! "translations" = Some (JList translations) →
  Reranker.rerank_scores self hypotheses reference w
  = (scores ← mapM (λ hypothesis,
                 Reranker.score_with_references
                   (Reranker.scoring_function self) hypothesis [reference])
               translations;
     mret (scores, Reranker.ranking_indices self scores)) w.
Proof.
  intros Hm Hp Hts. unfold Reranker.rerank_scores, dict_getitem.
  rewrite Hm, Hp, Hts. unfold mbind, M_bind, lift, mret, M_ret. simpl.
  match goal with |- _ = (let (_, _) := ?c in _) =>
    by destruct c as [w' [scores|e]] end.
Qed.

(** X8. For the BLEU-like and the ChrF-like metric, [rerank] calls the
    metric function once per hypothesis, in input order, with the
    reference wrapped in a one-element list (and with add-k smoothing for
    the BLEU-like metric); it makes no other call and prints nothing,
    whether or not it returns. *)
Theorem rerank_overlap_calls isometric_alpha return_score w0 w1 self
    hypotheses reference (strs : list string) w w' r :
  String.prefix RERANK_ISOMETRIC RERANK_BLEU = false →
  String.prefix RERANK_ISOMETRIC RERANK_CHRF = false →
  hypotheses !! "translations" = Some (JList (JStr <$> strs)) →
  Reranker.rerank self hypotheses reference w = (w', r) →
  (Reranker.__init__ RERANK_BLEU isometric_alpha return_score w0
     = (w1, Ok self) →
   w' = World (scoring_calls w ++
                 ((λ h, call_sentence_bleu h [reference] "add-k") <$> strs))
          (output_stream w)) ∧
  (RERANK_CHRF ≠ RERANK_BLEU →
   Reranker.__init__ RERANK_CHRF isometric_alpha return_score w0
     = (w1, Ok self) →
   w' = World (scoring_calls w ++
                 ((λ h, call_sentence_chrf h [reference]) <$> strs))
          (output_stream w)).
Proof.
  intros Hbleu Hchrf Hts [r0 Hrun]%rerank_world. split.
  - intros Hinit.
    apply __init___Ok_inv in Hinit as (_ & Hmetric & _ & _ & Hf).
    rewrite String.eqb_refl in Hf.
    rewrite (rerank_scores_overlap _ _ _ _ _ ltac:(by rewrite Hmetric,
      String.eqb_refl) ltac:(by rewrite Hmetric) Hts) in Hrun.
    unfold mbind, M_bind in Hrun. rewrite Hf, mapM_sentence_bleu in Hrun.
    by injection Hrun as <- _.
  - intros Hne%String.eqb_neq Hinit.
    apply __init___Ok_inv in Hinit as (_ & Hmetric & _ & _ & Hf).
    rewrite Hne, String.eqb_refl in Hf.
    rewrite (rerank_scores_overlap _ _ _ _ _ ltac:(by rewrite Hmetric,
      String.eqb_refl, orb_true_r) ltac:(by rewrite Hmetric) Hts) in Hrun.
    unfold mbind, M_bind in Hrun. rewrite Hf, mapM_sentence_chrf in Hrun.
    by injection Hrun as <- _.
Qed.

(** The loop over [zip(translations, scores)] for an isometric metric. *)
Lemma mapM_compute_isometric_score metric alpha source (strs : list string)
    (xs : list (Q * list json)) w :
  mapM (λ '(hypothesis, hypothesis_score),
          x ← lift (py_getitem hypothesis_score 0);
          Reranker.score_with_source
            (Reranker.partial_compute_isometric_score metric alpha)
            hypothesis x (JStr source))
       (zip (JStr <$> strs) ((λ xr, JList (JNum xr.1 :: xr.2)) <$> xs)) w
  = (World (scoring_calls w ++
              zip_with (λ h xr, call_compute_isometric_score h xr.1 source
                                  metric alpha) strs xs)
       (output_stream w),
     Ok (zip_with (λ h xr, compute_isometric_score h xr.1 source metric alpha)
           strs xs)).
Proof.
  revert xs w. induction strs as [|h strs IH]; intros xs w.
  - simpl. by rewrite app_nil_r, world_eta.
  - destruct xs as [|[x rest] xs].
    + simpl. by rewrite app_nil_r, world_eta.
    + simpl. unfold mbind at 1, M_bind at 1. simpl.
      unfold mbind at 1, M_bind at 1. rewrite IH. simpl.
      by rewrite <-app_assoc.
Qed.

Lemma rerank_scores_isometric self hypotheses reference source translations
    model_scores w :
  String.eqb (Reranker.metric self) RERANK_BLEU
    || String.eqb (Reranker.metric self) RERANK_CHRF = false →
  String.prefix RERANK_ISOMETRIC (Reranker.metric self) = true →
  hypotheses !! "text" = Some source →
  hypotheses !! "translations" = Some (JList translations) →
  hypotheses !! "scores" = Some (JList model_scores) →
  Reranker.rerank_scores self hypotheses reference w
  = (scores ← mapM (λ '(hypothesis, hypothesis_score),
                 x ← lift (py_getitem hypothesis_score 0);
                 Reranker.score_with_source (Reranker.scoring_function self)
                   hypothesis x source)
               (zip translations model_scores);
     mret (scores, Reranker.ranking_indices self scores)) w.
Proof.
  intros Hm Hp Htext Hts Hss. unfold Reranker.rerank_scores, dict_getitem.
  rewrite Hm, Hp, Htext, Hts, Hss.
  unfold mbind, M_bind, lift, mret, M_ret. simpl.
  match goal with |- _ = (let (_, _) := ?c in _) =>
    by destruct c as [w' [scores|e]] end.
Qed.

(** X9. For an isometric metric, [rerank] calls
    [compute_isometric_score] once per pair of
    [zip(translations, scores)], in input order, with the hypothesis, the
    first model score of the hypothesis, the source [text], the metric
    identifier and the blending weight given to the constructor; it makes
    no other call and prints nothing. *)
Theorem rerank_isometric_calls metric isometric_alpha return_score w0 w1 self
    hypotheses reference source (strs : list string)
    (xs : list (Q * list json)) w w' r :
  String.prefix RERANK_ISOMETRIC RERANK_BLEU = false →
  String.prefix RERANK_ISOMETRIC RERANK_CHRF = false →
  String.prefix RERANK_ISOMETRIC metric = true →
  Reranker.__init__ metric isometric_alpha return_score w0 = (w1, Ok self) →
  hypotheses !! "text" = Some (JStr source) →
  hypotheses !! "translations" = Some (JList (JStr <$> strs)) →
  hypotheses !! "scores"
    = Some (JList ((λ xr, JList (JNum xr.1 :: xr.2)) <$> xs)) →
  Reranker.rerank self hypotheses reference w = (w', r) →
  w' = World (scoring_calls w ++
                zip_with (λ h xr, call_compute_isometric_score h xr.1 source
                                    metric isometric_alpha) strs xs)
         (output_stream w).
Proof.
  intros Hbleu Hchrf Hp Hinit Htext Hts Hss [r0 Hrun]%rerank_world.
  apply __init___Ok_inv in Hinit as (_ & Hmetric & _ & _ & Hf).
  assert (String.eqb metric RERANK_BLEU = false) as Hb
    by (apply String.eqb_neq; intros ->; congruence).
  assert (String.eqb metric RERANK_CHRF = false) as Hc
    by (apply String.eqb_neq; intros ->; congruence).
  rewrite Hb, Hc in Hf. destruct Hf as [_ Hf].
  rewrite (rerank_scores_isometric _ _ _ _ _ _ _
             ltac:(by rewrite Hmetric, Hb, Hc) ltac:(by rewrite Hmetric)
             Htext Hts Hss) in Hrun.
  unfold mbind at 1, M_bind at 1 in Hrun.
  rewrite Hf, mapM_compute_isometric_score in Hrun.
  by injection Hrun as <- _.
Qed.

(** X10. A record that lacks a field that the metric family needs makes
    [rerank] raise [KeyError] for that field before any call to a metric
    function: [translations] for the overlap metrics; [text], then
    [translations], then [scores] for the isometric metrics. *)
Theorem rerank_missing_field self hypotheses reference w :
  (String.eqb (Reranker.metric self) RERANK_BLEU
     || String.eqb (Reranker.metric self) RERANK_CHRF = true →
   hypotheses !! "translations" = None →
   Reranker.rerank self hypotheses reference w
   = (w, Raise (KeyError "translations"))) ∧
  (String.eqb (Reranker.metric self) RERANK_BLEU
     || String.eqb (Reranker.metric self) RERANK_CHRF = false →
   String.prefix RERANK_ISOMETRIC (Reranker.metric self) = true →
   (hypotheses !! "text" = None →
    Reranker.rerank self hypotheses reference w
    = (w, Raise (KeyError "text"))) ∧
   (is_Some (hypotheses !! "text") →
    hypotheses !! "translations" = None →
    Reranker.rerank self hypotheses reference w
    = (w, Raise (KeyError "translations"))) ∧
   (is_Some (hypotheses !! "text") →
    is_Some (hypotheses !! "translations") →
    hypotheses !! "scores" = None →
    Reranker.rerank self hypotheses reference w
    = (w, Raise (KeyError "scores")))).
Proof.
  unfold Reranker.rerank, Reranker.rerank_scores, dict_getitem. split.
  - intros -> ->. done.
  - intros -> ->. split_and!.
    + intros ->. done.
    + intros [? ->] ->. done.
    + intros [? ->] [? ->] ->. done.
Qed.

Lemma getitems_Permutation_take {A} (l l' : list A) ranking n :
  ranking ≡ₚ seq 0 n → (n ≤ length l)%nat →
  getitems l ranking = Ok l' → l' ≡ₚ take n l.
Proof.
  intros Hp Hn H.
  apply (getitems_Permutation (take n l) l' ranking).
  - rewrite length_take. by replace (n `min` length l) with n by lia.
  - apply getitems_Ok. apply getitems_Ok in H.
    apply Forall2_same_length_lookup. split; [by eapply Forall2_length|].
    intros j i x Hi Hx.
    destruct (Forall2_lookup_l _ _ _ _ _ H Hi) as (x' & Hx' & Hl).
    rewrite Hx in Hx'. injection Hx' as <-.
    rewrite lookup_take_lt; [done|].
    assert (i ∈ seq 0 n) as ?%elem_of_seq; [|lia].
    rewrite <-Hp. by eapply list_elem_of_lookup_2.
Qed.

(** X11. For an isometric metric the scores are computed over
    [zip(translations, scores)]: when the record has fewer model score
    sequences than hypotheses, the output [translations] is a permutation
    of the first [len(scores)] hypotheses only, and the others are
    dropped. *)
Theorem rerank_isometric_truncates metric isometric_alpha return_score w0 w1
    self hypotheses reference ts ss w w' out :
  Reranker.__init__ metric isometric_alpha return_score w0 = (w1, Ok self) →
  String.prefix RERANK_ISOMETRIC metric = true →
  hypotheses !! "translations" = Some (JList ts) →
  hypotheses !! "scores" = Some (JList ss) →
  Reranker.rerank self hypotheses reference w = (w', Ok out) →
  ∃ ts', out !! "translations" = Some (JList ts') ∧
         ts' ≡ₚ take (length ss) ts ∧
         length ts' = length ts `min` length ss.
Proof.
  intros Hinit Hp Hts Hss Hrun.
  pose proof (__init___Ok_inv _ _ _ _ _ _ Hinit) as (_ & Hmetric & _).
  destruct (rerank_lookup _ _ _ _ _ _ Hrun) as (scores & ranking & Hs & Hout).
  pose proof (rerank_scores_Ok_inv _ _ _ _ _ _ _ Hs)
    as (-> & t & ts0 & Ht & Hiter & Hlen).
  rewrite Hmetric, Hp in Hlen. destruct Hlen as (m & ss0 & Hm & Hiter' & Hlen).
  rewrite Hts in Ht. injection Ht as <-. injection Hiter as <-.
  rewrite Hss in Hm. injection Hm as <-. injection Hiter' as <-.
  rewrite length_zip in Hlen.
  pose proof (__init___ranking_Permutation _ _ _ _ _ _ scores Hinit) as Hperm.
  assert (option_Forall2 (λ v v', Reranker.ranksort _ v = Ok v')
            (hypotheses !! "translations") (out !! "translations")) as Ho
    by (apply Hout; by right).
  rewrite Hts in Ho. inversion Ho as [? v' Hr Heq1 Heq2|].
  apply ranksort_list in Hr as (ts' & Hget & ->).
  exists ts'. split; [done|].
  assert (take (length ss) ts = take (length scores) ts) as ->.
  { rewrite Hlen, <-take_take. symmetry. apply take_ge.
    rewrite length_take. lia. }
  split.
  - eapply getitems_Permutation_take; [exact Hperm|lia|exact Hget].
  - rewrite (getitems_length _ _ _ Hget), Hperm, length_seq. done.
Qed.

(** X12. On a record with no hypothesis, [rerank] with an overlap metric
    calls no metric function; without attached scores it returns the
    record with every list-valued field emptied, and with attached scores
    it raises [IndexError] (there is no best score to take). *)
Theorem rerank_empty_translations metric isometric_alpha return_score w0 w1
    self hypotheses reference w :
  Reranker.__init__ metric isometric_alpha return_score w0 = (w1, Ok self) →
  String.prefix RERANK_ISOMETRIC metric = false →
  hypotheses !! "translations" = Some (JList []) →
  Reranker.rerank self hypotheses reference w
  = (w, if return_score then Raise IndexError
        else Ok ((λ v, match v with JList _ => JList [] | _ => v end)
                   <$> hypotheses)).
Proof.
  intros Hinit Hp Hts.
  pose proof (__init___Ok_inv _ _ _ _ _ _ Hinit)
    as (_ & Hmetric & Hrs & Hri & Hf).
  assert (String.eqb metric RERANK_BLEU || String.eqb metric RERANK_CHRF
          = true) as Hm.
  { destruct (String.eqb metric RERANK_BLEU); [done|].
    destruct (String.eqb metric RERANK_CHRF); [done|].
    destruct Hf. congruence. }
  assert (Reranker.rerank_scores self hypotheses reference w
          = (w, Ok ([], []))) as Hs.
  { rewrite (rerank_scores_overlap _ _ _ [] _ ltac:(by rewrite Hmetric)
               ltac:(by rewrite Hmetric) Hts).
    simpl. unfold mbind, M_bind, mret, M_ret. simpl. rewrite Hri.
    by destruct (String.eqb metric RERANK_ISOMETRIC_LC). }
  assert (Reranker._sort_by_ranking hypotheses []
          = Ok ((λ v, match v with JList _ => JList [] | _ => v end)
                  <$> hypotheses)) as Hd.
  { apply _sort_by_ranking_Ok_iff. intros key. rewrite lookup_fmap.
    destruct (hypotheses !! key) as [v|]; constructor. by destruct v. }
  unfold Reranker.rerank. rewrite (bind_Ok _ _ _ _ _ Hs).
  unfold mbind, M_bind, lift. rewrite Hd, Hrs.
  destruct return_score; [|done]. simpl.
  unfold dict_getitem. by rewrite lookup_insert_eq.
Qed.

(** X13. The record that [rerank] returns has the keys of the input
    record, and in addition [scores] and [score] when scores are
    attached. *)
Theorem rerank_keys self hypotheses reference w w' out :
  Reranker.rerank self hypotheses reference w = (w', Ok out) →
  dom out = if Reranker.return_score self
            then {["score"]} ∪ ({["scores"]} ∪ dom hypotheses)
            else dom hypotheses.
Proof.
  intros (scores & ranking & d & _ & Hd & Hout)%rerank_Ok_inv.
  apply _sort_by_ranking_dom in Hd.
  destruct (Reranker.return_score self).
  - destruct Hout as (sorted & best & _ & _ & ->).
    by rewrite !dom_insert_L, Hd.
  - by subst.
Qed.

(** The output of [rerank] for scores [f h] ranked in descending order:
    the first hypothesis has the highest score. *)
Lemma rerank_descending_top self hypotheses reference (f : string → Q)
    (strs : list string) w w' out :
  strs ≠ [] →
  hypotheses !! "translations" = Some (JList (JStr <$> strs)) →
  Reranker.rerank_scores self hypotheses reference w
  = (w', Ok (f <$> strs,
             Reranker._get_ranking_indices (f <$> strs) "mergesort"
               "descending")) →
  (∃ w'', Reranker.rerank self hypotheses reference w = (w'', Ok out)) →
  ∃ best rest,
    out !! "translations" = Some (JList (JStr <$> best :: rest)) ∧
    best :: rest ≡ₚ strs ∧
    Forall (λ h, (f h <= f best)%Q) strs.
Proof.
  intros Hne Hts Hs [w'' Hrun].
  destruct (rerank_lookup _ _ _ _ _ _ Hrun) as (scores & ranking & Hs' & Hout).
  rewrite Hs in Hs'. injection Hs' as _ <- <-.
  set (ranking := Reranker._get_ranking_indices _ _ _) in *.
  assert (ranking ≡ₚ seq 0 (length strs)) as Hperm.
  { unfold ranking. rewrite _get_ranking_indices_Permutation.
    by rewrite length_fmap. }
  destruct (getitems_returns strs ranking) as [strs' Hget].
  { rewrite Hperm. apply Forall_forall. by intros i [_ ?]%elem_of_seq. }
  assert (option_Forall2 (λ v v', Reranker.ranksort ranking v = Ok v')
            (hypotheses !! "translations") (out !! "translations")) as Ho
    by (apply Hout; by right).
  rewrite Hts in Ho. inversion Ho as [? v' Hr Heq1 Heq2|].
  simpl in Hr. rewrite (getitems_fmap JStr _ _ _ Hget) in Hr.
  injection Hr as <-.
  pose proof (getitems_Permutation _ _ _ Hperm Hget) as Hp.
  destruct (_get_ranking_indices_descending (f <$> strs) "mergesort")
    as (in_order & Hget' & Hsorted).
  fold ranking in Hget'. rewrite (getitems_fmap f _ _ _ Hget) in Hget'.
  injection Hget' as <-.
  destruct strs' as [|best rest].
  { apply Permutation_nil_l in Hp. by subst. }
  exists best, rest. split_and!; [done..|].
  rewrite <-Hp. simpl in Hsorted.
  apply StronglySorted_inv in Hsorted as [_ Hall].
  constructor; [apply Qle_refl|]. rewrite Forall_fmap in Hall.
  eapply Forall_impl; [exact Hall|]. intros h Hh. exact Hh.
Qed.

(** X18. For the BLEU-like and the ChrF-like metric (whose identifiers
    are not the length-controlled one), the first hypothesis of the
    output is a hypothesis whose score is the highest of all, and the
    output holds the same hypotheses as the input. *)
Theorem rerank_overlap_top isometric_alpha return_score w0 w1 self
    hypotheses reference (strs : list string) w w' out :
  String.prefix RERANK_ISOMETRIC RERANK_BLEU = false →
  String.prefix RERANK_ISOMETRIC RERANK_CHRF = false →
  RERANK_BLEU ≠ RERANK_ISOMETRIC_LC → RERANK_CHRF ≠ RERANK_ISOMETRIC_LC →
  strs ≠ [] →
  hypotheses !! "translations" = Some (JList (JStr <$> strs)) →
  Reranker.rerank self hypotheses reference w = (w', Ok out) →
  (Reranker.__init__ RERANK_BLEU isometric_alpha return_score w0
     = (w1, Ok self) →
   ∃ best rest,
     out !! "translations" = Some (JList (JStr <$> best :: rest)) ∧
     best :: rest ≡ₚ strs ∧
     Forall (λ h, (sentence_bleu h [reference] "add-k"
                   <= sentence_bleu best [reference] "add-k")%Q) strs) ∧
  (RERANK_CHRF ≠ RERANK_BLEU →
   Reranker.__init__ RERANK_CHRF isometric_alpha return_score w0
     = (w1, Ok self) →
   ∃ best rest,
     out !! "translations" = Some (JList (JStr <$> best :: rest)) ∧
     best :: rest ≡ₚ strs ∧
     Forall (λ h, (sentence_chrf h [reference]
                   <= sentence_chrf best [reference])%Q) strs).
Proof.
  intros Hbleu Hchrf Hblc Hclc Hne Hts Hrun. split.
  - intros Hinit.
    apply __init___Ok_inv in Hinit as (_ & Hmetric & _ & Hri & Hf).
    rewrite String.eqb_refl in Hf.
    apply String.eqb_neq in Hblc. rewrite Hblc in Hri.
    eapply (rerank_descending_top self hypotheses reference
              (λ h, sentence_bleu h [reference] "add-k"));
      [done|done| |eauto].
    rewrite (rerank_scores_overlap _ _ _ _ _ ltac:(by rewrite Hmetric,
      String.eqb_refl) ltac:(by rewrite Hmetric) Hts).
    unfold mbind, M_bind. rewrite Hf, mapM_sentence_bleu, Hri. reflexivity.
  - intros Hcb%String.eqb_neq Hinit.
    apply __init___Ok_inv in Hinit as (_ & Hmetric & _ & Hri & Hf).
    rewrite Hcb, String.eqb_refl in Hf.
    apply String.eqb_neq in Hclc. rewrite Hclc in Hri.
    eapply (rerank_descending_top self hypotheses reference
              (λ h, sentence_chrf h [reference]));
      [done|done| |eauto].
    rewrite (rerank_scores_overlap _ _ _ _ _ ltac:(by rewrite Hmetric,
      String.eqb_refl, orb_true_r) ltac:(by rewrite Hmetric) Hts).
    unfold mbind, M_bind. rewrite Hf, mapM_sentence_chrf, Hri. reflexivity.
Qed.

(** X19. The isometric metrics do not use the reference: two calls of
    [rerank] that differ only in the reference behave alike. *)
Theorem rerank_isometric_ignores_reference self hypotheses reference
    reference' w :
  String.eqb (Reranker.metric self) RERANK_BLEU
    || String.eqb (Reranker.metric self) RERANK_CHRF = false →
  Reranker.rerank self hypotheses reference w
  = Reranker.rerank self hypotheses reference' w.
Proof.
  intros Hm. unfold Reranker.rerank, Reranker.rerank_scores.
  by rewrite Hm.
Qed.

End RerankerMore.

(** ** The driver *)

Lemma silent_mret {A} (a : A) : silent (mret a).
Proof. by intros w w' r [= <- _]. Qed.

Lemma silent_lift {A} (r : result A) : silent (lift r).
Proof. by intros w w' r' [= <- _]. Qed.

Lemma silent_raise {A} e : silent (raise (A:=A) e).
Proof. by intros w w' r' [= <- _]. Qed.

Lemma silent_called c score : silent (called c score).
Proof. by intros w w' r' [= <- _]. Qed.

Lemma silent_bind {A B} (c : M A) (f : A → M B) :
  silent c → (∀ a, silent (f a)) → silent (c ≫= f).
Proof.
  intros Hc Hf w w' r. unfold mbind, M_bind.
  destruct (c w) as [w1 [a|e]] eqn:Hcw.
  - intros H. rewrite (Hf _ _ _ _ H). by eapply Hc.
  - intros [= <- _]. by eapply Hc.
Qed.

Lemma silent_mapM {A B} (f : A → M B) l :
  (∀ x, silent (f x)) → silent (mapM f l).
Proof.
  intros Hf. induction l as [|x l IH]; simpl.
  - apply silent_mret.
  - apply silent_bind; [done|]. intros y.
    apply silent_bind; [done|]. intros k. apply silent_mret.
Qed.

Create HintDb silent.
#[local] Hint Resolve silent_mret silent_lift silent_raise silent_called
  : silent.

(** Proves [silent c] along the binds, branches and loops of [c]. *)
Ltac silent :=
  repeat first
    [ solve [auto with silent nocore]
    | apply silent_mapM; intros ?
    | apply silent_bind; [|intros ?]
    | match goal with
      | |- silent (if ?b then _ else _) => destruct b
      | |- silent (match ?x with _ => _ end) => destruct x
      | |- silent (let '(_, _) := ?x in _) => destruct x
      end ].

Section DriverMore.
Context {constants : Constants} {provider : ScoreProvider}.

Lemma silent_rerank self hypotheses reference :
  silent (Reranker.rerank self hypotheses reference).
Proof.
  unfold Reranker.rerank, Reranker.rerank_scores,
    Reranker.score_with_references, Reranker.score_with_source.
  silent.
Qed.

#[local] Hint Resolve silent_rerank : silent.









(** X14. The driver builds the [Reranker] before it reads a line: with an
    unrecognized metric identifier it raises the configuration error and
    has printed nothing and called no metric function, whatever the
    inputs. *)
Theorem rerank_driver_unknown_metric args reference hypotheses w :
  metric args ≠ RERANK_BLEU → metric args ≠ RERANK_CHRF →
  String.prefix RERANK_ISOMETRIC (metric args) = false →
  ∃ msg, rerank args reference hypotheses w = (w, Raise (SockeyeError msg)).
Proof.
  intros Hb%String.eqb_neq Hc%String.eqb_neq Hp.
  unfold rerank, Reranker.__init__. rewrite Hb, Hc, Hp. by eexists.
Qed.


(** X16. A hypothesis line without the key [translations] makes the loop
    body raise the error of [check_condition]; nothing is printed for the
    line and no metric function is called. *)
Theorem process_line_requires_translations reranker args i reference
    hypotheses w :
  hypotheses !! "translations" = None →
  process_line reranker args (i, (reference, hypotheses)) w
  = (w, Raise (SockeyeError
      "Reranking requires nbest JSON input with 'translations' key present.")).
Proof.
  intros Hts. unfold process_line, rerank_line, check_condition.
  rewrite Hts. by rewrite bool_decide_false by (by intros [? ?]).
Qed.

Lemma non_blank_scan_strings reranked_hypotheses (strs : list string) k n w :
  reranked_hypotheses !! "translations" = Some (JList (JStr <$> strs)) →
  k + n = length strs →
  non_blank_scan reranked_hypotheses (seq k n) (JStr "") w
  = (w, Ok (JStr (default "" (head (filter (λ s, s ≠ "") (drop k strs)))))).
Proof.
  intros Hts. revert k. induction n as [|n IH]; intros k Hk; simpl.
  - by rewrite drop_ge by lia.
  - destruct (lookup_lt_is_Some_2 strs k ltac:(lia)) as [s Hs].
    rewrite (drop_S _ _ _ Hs).
    unfold mbind, M_bind, lift, dict_getitem. rewrite Hts. simpl.
    unfold list_getitem. rewrite list_lookup_fmap, Hs. simpl.
    destruct (String.eqb_spec s "") as [->|Hne]; simpl.
    + rewrite filter_cons_False by (by intros ?).
      fold (@mbind M _). rewrite <-(IH (S k)) by lia. done.
    + by rewrite filter_cons_True.
Qed.

(** X17. The line printed in best-hypothesis mode, for ranked
    [translations] that are strings: the top hypothesis if it is not
    blank; otherwise the reference, if substitution is enabled and the
    reference is not blank; otherwise, if the scan is enabled and there is
    more than one hypothesis, the first hypothesis in ranked order that is
    not blank, or a blank line if all are blank; otherwise a blank
    line. *)
Theorem output_line_best_selection args reranked_hypotheses reference
    (strs : list string) w :
  output_best args = true →
  reranked_hypotheses !! "translations" = Some (JList (JStr <$> strs)) →
  output_line args reranked_hypotheses (length strs) reference w
  = (World (scoring_calls w)
       (output_stream w ++
        [print_value (JStr (
           if negb (String.eqb (default "" (head strs)) "") then
             default "" (head strs)
           else if output_reference_instead_of_blank args
                   && negb (String.eqb reference "") then
             reference
           else if output_best_non_blank args
                   && bool_decide (1 < length strs) then
             default "" (head (filter (λ s, s ≠ "") strs))
           else ""))]),
     Ok ()).
Proof.
  intros Hbest Hts. unfold output_line. rewrite Hbest.
  assert ((if bool_decide (length strs ≠ 0)
           then translations ← lift (dict_getitem reranked_hypotheses
                                       "translations");
                lift (py_getitem translations 0)
           else mret (JStr "")) w
          = (w, Ok (JStr (default "" (head strs))))) as Htop.
  { destruct strs as [|s strs]; [done|].
    rewrite bool_decide_true by done.
    unfold mbind, M_bind, lift, dict_getitem. by rewrite Hts. }
  rewrite (bind_Ok _ _ _ _ _ Htop). clear Htop.
  set (top := default "" (head strs)).
  assert (∀ b : bool,
            (if b then non_blank_scan reranked_hypotheses
                         (seq 0 (length strs)) (JStr "")
             else mret (JStr "")) w
            = (w, Ok (JStr (if b then default ""
                                        (head (filter (λ s, s ≠ "") strs))
                            else "")))) as Hscan.
  { intros [|]; [|done].
    by rewrite (non_blank_scan_strings _ strs 0 (length strs) w Hts). }
  cbn [py_truthy].
  destruct (String.eqb top "") eqn:Hblank; cbn [negb andb].
  2: { cbn [py_truthy]. rewrite Hblank. reflexivity. }
  apply String.eqb_eq in Hblank. rewrite Hblank.
  destruct (output_reference_instead_of_blank args); cbn [negb andb].
  - cbn [py_truthy].
    destruct (String.eqb reference "") eqn:Href; cbn [negb andb];
      [|reflexivity].
    apply String.eqb_eq in Href. subst reference.
    by rewrite (bind_Ok _ _ _ _ _ (Hscan _)).
  - cbn [py_truthy]. rewrite String.eqb_refl. cbn [negb andb].
    by rewrite (bind_Ok _ _ _ _ _ (Hscan _)).
Qed.

End DriverMore.

(** * The theorems at concrete records *)

#[local] Existing Instance Sample.constants.
#[local] Existing Instance Sample.provider.

(** Closes an equation between closed terms by evaluating its left side. *)
Ltac evaluate :=
  lazymatch goal with |- _ = ?r => vm_cast_no_check (eq_refl r) end.

Lemma isometric_lc_init :
  Reranker.__init__ "isometric-lc" 0.5 false Sample.w0
  = (Sample.w0, Ok Sample.isometric_lc).
Proof. evaluate. Qed.

Lemma isometric_lc_run :
  Reranker.rerank Sample.isometric_lc Sample.nbest "reference" Sample.w0
  = (Sample.isometric_lc_world, Ok Sample.isometric_lc_nbest).
Proof. evaluate. Qed.

Lemma bleu_scored_init :
  Reranker.__init__ "bleu" 0.5 true Sample.w0
  = (Sample.w0, Ok Sample.bleu_scored).
Proof. evaluate. Qed.

Lemma bleu_scored_run :
  Reranker.rerank Sample.bleu_scored Sample.nbest "reference" Sample.w0
  = (Sample.bleu_world, Ok Sample.bleu_scored_nbest).
Proof. evaluate. Qed.

(** The driver on two lines, in best-hypothesis mode. *)
Example rerank_driver_run :
  output_stream
    (rerank Sample.best_non_blank ["first reference"; "second reference"]
       [ {[ "translations" := Sample.strs ["x"; "longer"] ]};
         {[ "translations" := Sample.strs [""] ]} ] Sample.w0).1
  = [print_value (JStr "longer"); print_value (JStr "")].
Proof. evaluate. Qed.

(** C2 at the length-controlled isometric metric. *)
Lemma rerank_direction_witness :
  ∃ scores ranking in_order,
    Reranker.rerank_scores Sample.isometric_lc Sample.nbest "reference"
      Sample.w0 = (Sample.isometric_lc_world, Ok (scores, ranking)) ∧
    (∀ ts, Sample.nbest !! "translations" = Some (JList ts) →
           ∃ ts', getitems ts ranking = Ok ts' ∧
                  Sample.isometric_lc_nbest !! "translations"
                    = Some (JList ts')) ∧
    getitems scores ranking = Ok in_order ∧
    ("isometric-lc" ≠ RERANK_ISOMETRIC_LC →
     StronglySorted (λ a b, (b <= a)%Q) in_order) ∧
    ("isometric-lc" = RERANK_ISOMETRIC_LC →
     StronglySorted (λ a b, (a <= b)%Q) in_order).
Proof.
  exact (rerank_direction "isometric-lc" 0.5 false Sample.w0 Sample.w0
           Sample.isometric_lc Sample.nbest "reference" Sample.w0
           Sample.isometric_lc_world Sample.isometric_lc_nbest
           isometric_lc_init isometric_lc_run).
Defined.

(** C3 at the length-controlled isometric metric. *)
Lemma rerank_translations_Permutation_witness :
  (∀ w' out,
     Reranker.rerank Sample.isometric_lc Sample.nbest "reference" Sample.w0
       = (w', Ok out) →
     ∃ ts', out !! "translations" = Some (JList ts') ∧
            ts' ≡ₚ JStr <$> ["abc"; "abcde"; "fghij"; "a"]) ∧
  ((∀ key l, Sample.nbest !! key = Some (JList l) →
             (length ["abc"; "abcde"; "fghij"; "a"] ≤ length l)%nat) →
   ∃ w' out,
     Reranker.rerank Sample.isometric_lc Sample.nbest "reference" Sample.w0
       = (w', Ok out)).
Proof.
  apply (rerank_translations_Permutation "isometric-lc" 0.5 false Sample.w0
           Sample.w0).
  - reflexivity.
  - reflexivity.
  - exact isometric_lc_init.
  - evaluate.
  - discriminate.
  - intros _. exists "source".
    exists [Sample.nums [-1]; Sample.nums [-2]; Sample.nums [-3];
            Sample.nums [-4]]%Q.
    split; [evaluate|]. split; [evaluate|]. split; [reflexivity|].
    repeat constructor; by eexists _, _.
Defined.

(** C4, as amended, at the length-controlled isometric metric. *)
Lemma rerank_fields_witness :
  ∃ scores ranking,
    Reranker.rerank_scores Sample.isometric_lc Sample.nbest "reference"
      Sample.w0 = (Sample.isometric_lc_world, Ok (scores, ranking)) ∧
    ranking ≡ₚ seq 0 (length scores) ∧
    ∀ key v,
      Sample.nbest !! key = Some v →
      false = false ∨ (key ≠ "scores" ∧ key ≠ "score") →
      match v with
      | JList l =>
          ∃ l', Sample.isometric_lc_nbest !! key = Some (JList l') ∧
                length l' = length ranking ∧
                ∀ j i, ranking !! j = Some i →
                       is_Some (l !! i) ∧ l' !! j = l !! i
      | _ => Sample.isometric_lc_nbest !! key = Some v
      end.
Proof.
  exact (rerank_fields "isometric-lc" 0.5 false Sample.w0 Sample.w0
           Sample.isometric_lc Sample.nbest "reference" Sample.w0
           Sample.isometric_lc_world Sample.isometric_lc_nbest
           isometric_lc_init isometric_lc_run).
Defined.

(** C4 as stated fails: a list-valued field whose length differs from the
    number of hypotheses is not left alone (here a field of three elements
    of a record with two hypotheses comes out with two elements), and with
    scores attached a field [score] that is not a list is overwritten. *)
Lemma rerank_fields_counterexample :
  ¬ (∀ (hypotheses out : gmap string json) key ts l,
       Sample.rerank "bleu" false hypotheses "reference" = Ok out →
       hypotheses !! "translations" = Some (JList ts) →
       hypotheses !! key = Some (JList l) →
       length l ≠ length ts →
       out !! key = Some (JList l)) ∧
  ¬ (∀ (hypotheses out : gmap string json) key v,
       Sample.rerank "bleu" true hypotheses "reference" = Ok out →
       hypotheses !! key = Some v →
       (∀ l, v ≠ JList l) →
       out !! key = Some v).
Proof.
  split.
  - intros H.
    assert (Sample.rerank "bleu" false Sample.nbest_longer_field "reference"
            = Ok {[ "translations" := Sample.strs ["bb"; "a"];
                    "alignment" := Sample.strs ["q"; "p"] ]}) as Hrun
      by evaluate.
    assert (Sample.nbest_longer_field !! "translations"
            = Some (JList (JStr <$> ["a"; "bb"]))) as Hts by evaluate.
    assert (Sample.nbest_longer_field !! "alignment"
            = Some (JList (JStr <$> ["p"; "q"; "r"]))) as Hl by evaluate.
    assert (length (JStr <$> ["p"; "q"; "r"]) ≠ length (JStr <$> ["a"; "bb"]))
      as Hlen by discriminate.
    pose proof (H _ _ _ _ _ Hrun Hts Hl Hlen) as Hc.
    vm_compute in Hc. discriminate Hc.
  - intros H.
    assert (Sample.rerank "bleu" true Sample.nbest_with_score "reference"
            = Ok {[ "translations" := Sample.strs ["bb"; "a"];
                    "scores" := Sample.nums [2; 1]%Q;
                    "score" := JNum 2 ]}) as Hrun by evaluate.
    assert (Sample.nbest_with_score !! "score" = Some (JNum 9)) as Hv
      by evaluate.
    assert (∀ l, JNum 9 ≠ JList l) as Hscalar by done.
    pose proof (H _ _ _ _ Hrun Hv Hscalar) as Hc.
    vm_compute in Hc. discriminate Hc.
Qed.

(** C7 at the BLEU-like metric. *)
Lemma rerank_attaches_scores_witness :
  ∃ scores ranking scores_sorted best,
    Reranker.rerank_scores Sample.bleu_scored Sample.nbest "reference"
      Sample.w0 = (Sample.bleu_world, Ok (scores, ranking)) ∧
    getitems scores ranking = Ok scores_sorted ∧
    Sample.bleu_scored_nbest !! "scores"
      = Some (JList (JNum <$> scores_sorted)) ∧
    Sample.bleu_scored_nbest !! "score" = Some (JNum best) ∧
    head scores_sorted = Some best ∧
    best ∈ scores ∧
    ("bleu" ≠ RERANK_ISOMETRIC_LC → Forall (λ s, (s <= best)%Q) scores) ∧
    ("bleu" = RERANK_ISOMETRIC_LC → Forall (λ s, (best <= s)%Q) scores).
Proof.
  exact (rerank_attaches_scores "bleu" 0.5 Sample.w0 Sample.w0
           Sample.bleu_scored Sample.nbest "reference" Sample.w0
           Sample.bleu_world Sample.bleu_scored_nbest
           bleu_scored_init bleu_scored_run).
Defined.

(** C9 at the BLEU-like metric. *)
Lemma rerank_overwrites_scores_witness :
  ∃ scores ranking scores_sorted,
    Reranker.rerank_scores Sample.bleu_scored Sample.nbest "reference"
      Sample.w0 = (Sample.bleu_world, Ok (scores, ranking)) ∧
    getitems scores ranking = Ok scores_sorted ∧
    Sample.bleu_scored_nbest !! "scores"
      = Some (JList (JNum <$> scores_sorted)) ∧
    ∀ key, key ≠ "scores" → key ≠ "score" →
      option_Forall2 (λ v v', Reranker.ranksort ranking v = Ok v')
        (Sample.nbest !! key) (Sample.bleu_scored_nbest !! key).
Proof.
  exact (rerank_overwrites_scores "bleu" 0.5 Sample.w0 Sample.w0
           Sample.bleu_scored Sample.nbest "reference" Sample.w0
           Sample.bleu_world Sample.bleu_scored_nbest
           bleu_scored_init bleu_scored_run).
Defined.

(** C5 at an unknown identifier and at an isometric one. *)
Lemma init_recognized_metrics_witness :
  (∃ msg,
     Reranker.__init__ "not-a-real-metric" 0.5 false Sample.w0
       = (Sample.w0, Raise (SockeyeError msg)) ∧
     msg = "Scoring metric '" +:+ "not-a-real-metric" +:+
           "' unknown. Choices are: " +:+ py_str_list RERANK_METRICS ∧
     ∀ m, m ∈ RERANK_METRICS → occurs_in (py_repr m) msg) ∧
  (∃ self,
     Reranker.__init__ "isometric-ratio" 0.5 false Sample.w0
       = (Sample.w0, Ok self)).
Proof.
  split.
  - apply (init_recognized_metrics "not-a-real-metric" 0.5 false Sample.w0);
      [discriminate|discriminate|reflexivity].
  - apply (init_recognized_metrics "isometric-ratio" 0.5 false Sample.w0).
    right. right. reflexivity.
Defined.

(** C6 at a record with one hypothesis. *)
Lemma rerank_line_degenerate_witness :
  rerank_line Sample.bleu_scored {[ "translations" := Sample.strs ["hello"] ]}
    "reference" Sample.w0
    = (Sample.w0, Ok ({[ "translations" := Sample.strs ["hello"] ]}, 1)) ∧
  ∀ args i,
    output_best args = false →
    process_line Sample.bleu_scored args
      (i, ("reference", {[ "translations" := Sample.strs ["hello"] ]}))
      Sample.w0
    = (World [] [print_json_dumps {[ "translations" := Sample.strs ["hello"] ]}],
       Ok ()).
Proof.
  apply (rerank_line_degenerate Sample.bleu_scored
           {[ "translations" := Sample.strs ["hello"] ]} "reference"
           [JStr "hello"] Sample.w0); [evaluate | simpl; lia].
Defined.

(** C8 at a record that holds only the ranked translations. *)
Lemma output_line_fallback_chain_witness :
  output_line Sample.best_non_blank
    {[ "translations" := Sample.strs [""; ""; "good translation"] ]} 3
    "reference" Sample.w0
  = (World [] [print_value (JStr "good translation")], Ok ()).
Proof.
  apply (output_line_fallback_chain Sample.best_non_blank
           {[ "translations" := Sample.strs [""; ""; "good translation"] ]}
           "reference" Sample.w0); [evaluate|reflexivity..].
Defined.

(** C10 at a record whose only hypothesis is blank. *)
Lemma process_line_single_blank_witness :
  process_line Sample.bleu_scored Sample.best_non_blank
    (1, ("reference", {[ "translations" := Sample.strs [""] ]})) Sample.w0
  = (World [] [print_value (JStr "")], Ok ()).
Proof.
  apply (process_line_single_blank Sample.bleu_scored Sample.best_non_blank 1
           "reference" {[ "translations" := Sample.strs [""] ]} Sample.w0);
    [evaluate|reflexivity..].
Defined.

(** * The further properties at concrete records *)




(** X4 at a record with a field of three elements. *)
Lemma sort_by_ranking_returns_iff_witness :
  ((∃ d, Reranker._sort_by_ranking Sample.nbest_longer_field [1; 0] = Ok d) ↔
   (∀ key l i, Sample.nbest_longer_field !! key = Some (JList l) →
               i ∈ [1; 0] → i < length l)) ∧
  (∀ e, Reranker._sort_by_ranking Sample.nbest_longer_field [1; 0] = Raise e →
        e = IndexError).
Proof. exact (sort_by_ranking_returns_iff Sample.nbest_longer_field [1; 0]). Defined.

Lemma nbest_longer_field_sorted :
  Reranker._sort_by_ranking Sample.nbest_longer_field [1; 0]
  = Ok {[ "translations" := Sample.strs ["bb"; "a"];
          "alignment" := Sample.strs ["q"; "p"] ]}.
Proof. evaluate. Qed.

(** X5 at the same record. *)
Lemma sort_by_ranking_shape_witness :
  dom ({[ "translations" := Sample.strs ["bb"; "a"];
          "alignment" := Sample.strs ["q"; "p"] ]} : gmap string json)
  = dom Sample.nbest_longer_field ∧
  (∀ key l, Sample.nbest_longer_field !! key = Some (JList l) →
            ∃ l', ({[ "translations" := Sample.strs ["bb"; "a"];
                      "alignment" := Sample.strs ["q"; "p"] ]}
                     : gmap string json) !! key = Some (JList l') ∧
                  length l' = length [1; 0]) ∧
  (∀ key v, Sample.nbest_longer_field !! key = Some v → (∀ l, v ≠ JList l) →
            ({[ "translations" := Sample.strs ["bb"; "a"];
                "alignment" := Sample.strs ["q"; "p"] ]}
               : gmap string json) !! key = Some v).
Proof.
  exact (sort_by_ranking_shape Sample.nbest_longer_field [1; 0] _
           nbest_longer_field_sorted).
Defined.

(** X6 at a record with two hypotheses and a field that is not a list. *)
Lemma sort_by_identity_ranking_witness :
  Reranker._sort_by_ranking Sample.nbest_with_score (seq 0 2)
  = Ok Sample.nbest_with_score.
Proof.
  apply sort_by_identity_ranking. intros key l.
  unfold Sample.nbest_with_score.
  intros [[_ H]|[_ H]]%lookup_insert_Some.
  - by injection H as <-.
  - by apply lookup_singleton_Some in H as [_ ?].
Defined.

(** X7 at the same record as X4: two swaps are the identity ranking. *)
Lemma sort_by_ranking_compose_witness :
  Reranker._sort_by_ranking
    {[ "translations" := Sample.strs ["bb"; "a"];
       "alignment" := Sample.strs ["q"; "p"] ]} [1; 0]
  = Reranker._sort_by_ranking Sample.nbest_longer_field [0; 1] ∧
  ∃ d2, Reranker._sort_by_ranking
          {[ "translations" := Sample.strs ["bb"; "a"];
             "alignment" := Sample.strs ["q"; "p"] ]} [1; 0] = Ok d2.
Proof.
  apply (sort_by_ranking_compose Sample.nbest_longer_field [1; 0] [1; 0]
           [0; 1]); [exact nbest_longer_field_sorted | reflexivity].
Defined.

(** X8 at the BLEU-like metric. *)
Lemma rerank_overlap_calls_witness :
  Sample.bleu_world
  = World ([] ++ ((λ h, call_sentence_bleu h ["reference"] "add-k")
                    <$> ["abc"; "abcde"; "fghij"; "a"])) [].
Proof.
  apply (rerank_overlap_calls 0.5 true Sample.w0 Sample.w0 Sample.bleu_scored
           Sample.nbest "reference" ["abc"; "abcde"; "fghij"; "a"] Sample.w0
           Sample.bleu_world (Ok Sample.bleu_scored_nbest));
    [reflexivity|reflexivity|evaluate|exact bleu_scored_run
    |exact bleu_scored_init].
Defined.

(** X9 at the length-controlled isometric metric. *)
Lemma rerank_isometric_calls_witness :
  Sample.isometric_lc_world
  = World ([] ++ zip_with
             (λ h xr, call_compute_isometric_score h xr.1 "source"
                        "isometric-lc" 0.5)
             ["abc"; "abcde"; "fghij"; "a"]
             [(-1, @nil json); (-2, []); (-3, []); (-4, [])]%Q) [].
Proof.
  apply (rerank_isometric_calls "isometric-lc" 0.5 false Sample.w0 Sample.w0
           Sample.isometric_lc Sample.nbest "reference" "source"
           ["abc"; "abcde"; "fghij"; "a"]
           [(-1, @nil json); (-2, []); (-3, []); (-4, [])]%Q Sample.w0
           Sample.isometric_lc_world (Ok Sample.isometric_lc_nbest));
    [reflexivity|reflexivity|reflexivity|exact isometric_lc_init
    |evaluate|evaluate|evaluate|exact isometric_lc_run].
Defined.

(** X10 at a record that only has [text]. *)
Lemma rerank_missing_field_witness :
  Reranker.rerank Sample.bleu_scored {[ "text" := JStr "source" ]}
    "reference" Sample.w0
  = (Sample.w0, Raise (KeyError "translations")) ∧
  Reranker.rerank Sample.isometric_lc {[ "text" := JStr "source" ]}
    "reference" Sample.w0
  = (Sample.w0, Raise (KeyError "translations")).
Proof.
  split.
  - apply (proj1 (rerank_missing_field Sample.bleu_scored
                    {[ "text" := JStr "source" ]} "reference" Sample.w0));
      [reflexivity|evaluate].
  - destruct (proj2 (rerank_missing_field Sample.isometric_lc
                       {[ "text" := JStr "source" ]} "reference" Sample.w0))
      as (_ & H & _); [reflexivity|reflexivity|].
    apply H; [exists (JStr "source")|]; evaluate.
Defined.

Lemma isometric_lc_short_scores_run :
  Reranker.rerank Sample.isometric_lc Sample.nbest_short_scores "reference"
    Sample.w0
  = (Sample.isometric_lc_short_world, Ok Sample.isometric_lc_short_nbest).
Proof. evaluate. Qed.

(** X11 at a record with three hypotheses and two model score sequences. *)
Lemma rerank_isometric_truncates_witness :
  ∃ ts',
    Sample.isometric_lc_short_nbest !! "translations" = Some (JList ts') ∧
    ts' ≡ₚ take (length [Sample.nums [-1]; Sample.nums [-2]]%Q)
             (JStr <$> ["abc"; "abcde"; "x"]) ∧
    length ts' = length (JStr <$> ["abc"; "abcde"; "x"])
                 `min` length [Sample.nums [-1]; Sample.nums [-2]]%Q.
Proof.
  apply (rerank_isometric_truncates "isometric-lc" 0.5 false Sample.w0
           Sample.w0 Sample.isometric_lc Sample.nbest_short_scores
           "reference" (JStr <$> ["abc"; "abcde"; "x"])
           [Sample.nums [-1]; Sample.nums [-2]]%Q Sample.w0
           Sample.isometric_lc_short_world Sample.isometric_lc_short_nbest
           isometric_lc_init eq_refl);
    [evaluate|evaluate|exact isometric_lc_short_scores_run].
Defined.

(** X12 at a record with no hypothesis, with attached scores. *)
Lemma rerank_empty_translations_witness :
  Reranker.rerank Sample.bleu_scored
    {[ "translations" := JList []; "scores" := Sample.nums [1; 2]%Q ]}
    "reference" Sample.w0
  = (Sample.w0, Raise IndexError).
Proof.
  apply (rerank_empty_translations "bleu" 0.5 true Sample.w0 Sample.w0
           Sample.bleu_scored _ "reference" Sample.w0 bleu_scored_init
           eq_refl).
  evaluate.
Defined.

(** X13 at the BLEU-like metric with attached scores. *)
Lemma rerank_keys_witness :
  dom Sample.bleu_scored_nbest
  = {["score"]} ∪ ({["scores"]} ∪ dom Sample.nbest).
Proof.
  exact (rerank_keys Sample.bleu_scored Sample.nbest "reference" Sample.w0
           Sample.bleu_world Sample.bleu_scored_nbest bleu_scored_run).
Defined.

(** X14 at an unknown identifier. *)
Lemma rerank_driver_unknown_metric_witness :
  ∃ msg,
    rerank {| metric := "not-a-real-metric"; isometric_alpha := 0.5;
              return_score := false; output_best := true;
              output_reference_instead_of_blank := false;
              output_best_non_blank := false |}
      ["a reference"] [Sample.nbest] Sample.w0
    = (Sample.w0, Raise (SockeyeError msg)).
Proof.
  apply rerank_driver_unknown_metric; [discriminate|discriminate|reflexivity].
Defined.



(** X16 at a line that has no [translations]. *)
Lemma process_line_requires_translations_witness :
  process_line Sample.bleu_scored Sample.best_non_blank
    (1, ("reference", {[ "text" := JStr "source" ]})) Sample.w0
  = (Sample.w0, Raise (SockeyeError
      "Reranking requires nbest JSON input with 'translations' key present.")).
Proof.
  apply (process_line_requires_translations Sample.bleu_scored
           Sample.best_non_blank 1 "reference"
           {[ "text" := JStr "source" ]} Sample.w0).
  evaluate.
Defined.

(** X17 at three blank hypotheses: the scan finds nothing to print. *)
Lemma output_line_best_selection_witness :
  output_line Sample.best_non_blank
    {[ "translations" := Sample.strs [""; ""; ""] ]} 3 "reference" Sample.w0
  = (World [] [print_value (JStr "")], Ok ()).
Proof.
  apply (output_line_best_selection Sample.best_non_blank
           {[ "translations" := Sample.strs [""; ""; ""] ]} "reference"
           [""; ""; ""] Sample.w0); [reflexivity|evaluate].
Defined.

(** X18 at the BLEU-like metric. *)
Lemma rerank_overlap_top_witness :
  ∃ best rest,
    Sample.bleu_scored_nbest !! "translations"
      = Some (JList (JStr <$> best :: rest)) ∧
    best :: rest ≡ₚ ["abc"; "abcde"; "fghij"; "a"] ∧
    Forall (λ h, (sentence_bleu h ["reference"] "add-k"
                  <= sentence_bleu best ["reference"] "add-k")%Q)
      ["abc"; "abcde"; "fghij"; "a"].
Proof.
  apply (rerank_overlap_top 0.5 true Sample.w0 Sample.w0 Sample.bleu_scored
           Sample.nbest "reference" ["abc"; "abcde"; "fghij"; "a"] Sample.w0
           Sample.bleu_world Sample.bleu_scored_nbest);
    [reflexivity|reflexivity|discriminate|discriminate|discriminate
    |evaluate|exact bleu_scored_run|exact bleu_scored_init].
Defined.

(** X19 at the length-controlled isometric metric. *)
Lemma rerank_isometric_ignores_reference_witness :
  Reranker.rerank Sample.isometric_lc Sample.nbest "one reference" Sample.w0
  = Reranker.rerank Sample.isometric_lc Sample.nbest "another" Sample.w0.
Proof.
  apply (rerank_isometric_ignores_reference Sample.isometric_lc Sample.nbest
           "one reference" "another" Sample.w0).
  reflexivity.
Defined.
